(** * OpenCL language server: JSON-RPC endpoint and diagnostics engine

    A shallow embedding of [src/jsonrpc.cpp] and [src/diagnostics.cpp]
    together with the properties of the framing/dispatch state machine,
    of the build-log parser and of the device selection policy. *)

From Stdlib Require Import ZArith Ascii String List Bool Lia DecimalString.
From stdpp Require Import base option gmap strings list.

Local Open Scope string_scope.
Local Open Scope Z_scope.

(** ** Strings

    [std::string] is Rocq's [string]; lengths are [nat] and are cast to
    [Z] where the source compares them with an integer field. *)

Module Str.

Fixpoint all (p : ascii -> bool) (s : string) : bool :=
  match s with
  | EmptyString => true
  | String a s' => p a && all p s'
  end.

(** [s.rfind(p, 0) != npos], that is: [s] starts with [p]. *)
Fixpoint starts_with (p s : string) : bool :=
  match p, s with
  | EmptyString, _ => true
  | String a p', String b s' => Ascii.eqb a b && starts_with p' s'
  | String _ _, EmptyString => false
  end.

(** The first [n] characters of [s]. *)
Fixpoint take (n : nat) (s : string) : string :=
  match n, s with
  | S n', String a s' => String a (take n' s')
  | _, _ => EmptyString
  end.

(** The text consumed between the remaining input [s] and the later
    remaining input [s'] (a suffix of [s]). *)
Definition consumed (s s' : string) : string :=
  take (String.length s - String.length s') s.

Fixpoint drop (n : nat) (s : string) : string :=
  match n, s with
  | S n', String _ s' => drop n' s'
  | _, _ => s
  end.

(** [s] without its suffix [suf], when it ends with it. *)
Definition strip_suffix (suf s : string) : option string :=
  let n := (String.length s - String.length suf)%nat in
  if String.eqb (drop n s) suf && (String.length suf <=? String.length s)%nat
  then Some (take n s) else None.

Definition is_digit (a : ascii) : bool :=
  let n := nat_of_ascii a in (48 <=? n)%nat && (n <=? 57)%nat.

Definition digit_val (a : ascii) : Z := Z.of_nat (nat_of_ascii a) - 48.

(** Space characters of [std::isspace] in the C locale. *)
Definition is_space (a : ascii) : bool :=
  let n := nat_of_ascii a in (n =? 32)%nat || ((9 <=? n)%nat && (n <=? 13)%nat).

(** The double quote, and a way to write it inside literals: [dq] turns
    every apostrophe of its argument into a double quote. *)
Definition dquote : string := String (ascii_of_nat 34) EmptyString.

Fixpoint dq (s : string) : string :=
  match s with
  | EmptyString => EmptyString
  | String a s' =>
      String (if Ascii.eqb a (ascii_of_nat 39) then ascii_of_nat 34 else a) (dq s')
  end.

Definition CR : ascii := ascii_of_nat 13.
Definition LF : ascii := ascii_of_nat 10.

(** ECMAScript line terminators that fit in a byte. *)
Definition is_line_terminator (a : ascii) : bool :=
  Ascii.eqb a LF || Ascii.eqb a CR.

End Str.

(** ** Regular expressions ([std::regex], ECMAScript grammar)

    The two patterns of the program use only literals, character classes,
    anchors, greedy repetition, alternation and capture groups.  The
    matcher is the backtracking one of the ECMAScript specification:
    alternatives are tried left to right, repetition is greedy, and the
    first successful path gives the captures. *)

Module Regex.

Inductive regex : Type :=
| Eps
| Chr (p : ascii -> bool)          (* one character satisfying [p] *)
| Bol                              (* ^ *)
| Eol                              (* $ *)
| Seq (r1 r2 : regex)
| Alt (r1 r2 : regex)
| Star (r : regex)                 (* r*, greedy *)
| StarLazy (r : regex)             (* r*?, non-greedy *)
| Group (i : nat) (r : regex).     (* (r), capture number i *)

Definition Plus (r : regex) : regex := Seq r (Star r).   (* r+ *)
Definition PlusLazy (r : regex) : regex := Seq r (StarLazy r).   (* r+? *)
Definition Opt (r : regex) : regex := Alt r Eps.         (* r? *)

Fixpoint Lit (s : string) : regex :=
  match s with
  | EmptyString => Eps
  | String a s' => Seq (Chr (Ascii.eqb a)) (Lit s')
  end.

Definition Dot : regex := Chr (fun a => negb (Str.is_line_terminator a)).
Definition Digit : regex := Chr Str.is_digit.

(** Captures: sub-match number to matched text.  A group that took no
    part in the match is absent; its [str()] is the empty string. *)
Abbreviation captures := (gmap nat string).

Definition cont : Type := string -> captures -> option captures.

(** One more iteration of a star must consume input; [fuel] bounds the
    iterations and is never exhausted when it exceeds the input length. *)
Fixpoint star_loop (step : cont -> cont) (k : cont) (fuel : nat) : cont :=
  fun s c =>
    match fuel with
    | O => k s c
    | S f =>
        match step (fun s' c' =>
                      if (String.length s' <? String.length s)%nat
                      then star_loop step k f s' c' else None) s c with
        | Some res => Some res
        | None => k s c
        end
    end.

(** The non-greedy loop tries to stop before it tries one more iteration. *)
Fixpoint lazy_loop (step : cont -> cont) (k : cont) (fuel : nat) : cont :=
  fun s c =>
    match fuel with
    | O => k s c
    | S f =>
        match k s c with
        | Some res => Some res
        | None =>
            step (fun s' c' =>
                    if (String.length s' <? String.length s)%nat
                    then lazy_loop step k f s' c' else None) s c
        end
    end.

(** [exec r n0 k s c]: match [r] at the remaining input [s] (the whole
    input has length [n0]) with captures [c], then continue with [k]. *)
Fixpoint exec (r : regex) (n0 : nat) (k : cont) : cont :=
  match r with
  | Eps => k
  | Chr p => fun s c =>
      match s with
      | String a s' => if p a then k s' c else None
      | EmptyString => None
      end
  | Bol => fun s c => if (String.length s =? n0)%nat then k s c else None
  | Eol => fun s c =>
      match s with
      | EmptyString => k s c
      | String _ _ => None
      end
  | Seq r1 r2 => exec r1 n0 (exec r2 n0 k)
  | Alt r1 r2 => fun s c =>
      match exec r1 n0 k s c with
      | Some res => Some res
      | None => exec r2 n0 k s c
      end
  | Star r1 => fun s c => star_loop (exec r1 n0) k (S (String.length s)) s c
  | StarLazy r1 => fun s c => lazy_loop (exec r1 n0) k (S (String.length s)) s c
  | Group i r1 => fun s c =>
      exec r1 n0 (fun s' c' => k s' (<[i := Str.consumed s s']> c')) s c
  end.

Definition accept : cont := fun _ c => Some c.

(** [std::regex_search]: the first start position with a match; the
    whole match is sub-match 0. *)
Fixpoint search_from (r : regex) (n0 : nat) (s : string) : option captures :=
  match exec (Group 0 r) n0 accept s ∅ with
  | Some c => Some c
  | None =>
      match s with
      | EmptyString => None
      | String _ s' => search_from r n0 s'
      end
  end.

Definition regex_search (s : string) (r : regex) : option captures :=
  search_from r (String.length s) s.

(** The number of marked sub-expressions. *)
Fixpoint mark_count (r : regex) : nat :=
  match r with
  | Eps | Chr _ | Bol | Eol => 0
  | Seq r1 r2 | Alt r1 r2 => mark_count r1 + mark_count r2
  | Star r1 | StarLazy r1 => mark_count r1
  | Group _ r1 => S (mark_count r1)
  end.

(** [std::smatch] after a search: empty when the search failed. *)
Record smatch := { sm_regex : regex; sm_caps : option captures }.

Definition size (m : smatch) : nat :=
  match sm_caps m with
  | None => 0
  | Some _ => S (mark_count (sm_regex m))
  end.

(** [m[i]] converted to [std::string]. *)
Definition str (m : smatch) (i : nat) : string :=
  match sm_caps m with
  | None => ""
  | Some c => default "" (c !! i)
  end.

Definition search (s : string) (r : regex) : smatch :=
  {| sm_regex := r; sm_caps := regex_search s r |}.

End Regex.

(** ** Exceptions

    Fallible code returns [result]: a value, or the exception thrown. *)

Inductive exn : Type :=
| runtime_error (what : string)      (* std::runtime_error *)
| invalid_argument                   (* std::invalid_argument *)
| out_of_range                       (* std::out_of_range *)
| json_parse_error                   (* nlohmann::json::parse_error *)
| json_type_error (id : Z)           (* nlohmann::json::type_error *)
| cl_Error (err : Z).                (* cl::Error *)

Inductive result (A : Type) : Type :=
| Ok (a : A)
| Throw (e : exn).
Arguments Ok {A} a.
Arguments Throw {A} e.

#[global] Instance result_ret : MRet result := fun A a => Ok a.
#[global] Instance result_bind : MBind result := fun A B f m =>
  match m with
  | Ok a => f a
  | Throw e => Throw e
  end.

#[global] Instance result_fmap : FMap result := fun A B f m =>
  match m with
  | Ok a => Ok (f a)
  | Throw e => Throw e
  end.

Definition is_cl_Error (e : exn) : bool :=
  match e with cl_Error _ => true | _ => false end.

(** [std::stoi]: optional white space, optional sign, decimal digits;
    [invalid_argument] without a digit, [out_of_range] outside [int]. *)
Module Std.

Definition INT_MIN : Z := -2147483648.
Definition INT_MAX : Z := 2147483647.

Fixpoint skip_spaces (s : string) : string :=
  match s with
  | String a s' => if Str.is_space a then skip_spaces s' else s
  | EmptyString => s
  end.

Fixpoint digits_val (acc : Z) (s : string) : Z :=
  match s with
  | String a s' =>
      if Str.is_digit a then digits_val (10 * acc + Str.digit_val a) s' else acc
  | EmptyString => acc
  end.

Definition leading_digit (s : string) : bool :=
  match s with
  | String a _ => Str.is_digit a
  | EmptyString => false
  end.

Definition stoi (s : string) : result Z :=
  let s1 := skip_spaces s in
  let '(neg, s2) :=
    match s1 with
    | String "-" t => (true, t)
    | String "+" t => (false, t)
    | _ => (false, s1)
    end in
  if leading_digit s2 then
    let v := digits_val 0 s2 in
    let v := if neg : bool then - v else v in
    if (INT_MIN <=? v) && (v <=? INT_MAX) then Ok v else Throw out_of_range
  else Throw invalid_argument.

End Std.

(** ** Diagnostics engine ([diagnostics.cpp]) *)

Module Diagnostics.
Import Regex.

(** [ParseSeverity] *)
Definition ParseSeverity (severity : string) : Z :=
  if String.eqb severity "error" then 1
  else if String.eqb severity "warning" then 2
  else -1.

(** The pattern text of [m_regex] as it stands in the source. *)
Definition m_regex_pattern : string :=
  "^(.*):(\d+):(\d+): ((fatal )?error|warning|Scholar): (.*)$".

(** [m_regex]: the pattern above, group by group. *)
Definition m_regex : regex :=
  Seq Bol
 (Seq (Group 1 (Star Dot))
 (Seq (Lit ":")
 (Seq (Group 2 (Plus Digit))
 (Seq (Lit ":")
 (Seq (Group 3 (Plus Digit))
 (Seq (Lit ": ")
 (Seq (Group 4 (Alt (Seq (Opt (Group 5 (Lit "fatal "))) (Lit "error"))
               (Alt (Lit "warning")
                    (Lit "Scholar"))))
 (Seq (Lit ": ")
 (Seq (Group 6 (Star Dot))
      Eol))))))))).

(** [ParseOutput]: (source, line, col, severity, message). *)
Definition ParseOutput (matches : smatch) : result (string * Z * Z * Z * string) :=
  let source := str matches 1 in
  l ← Std.stoi (str matches 2);
  let line := l - 1 in                    (* LSP assumes 0-indexed lines *)
  col ← Std.stoi (str matches 3);
  let severity := ParseSeverity (str matches 4) in
  (* matches[5] - 'fatal' *)
  let message := str matches 6 in
  mret (source, line, col, severity, message).

Record Position := { line : Z; character : Z }.
Record Range := { range_start : Position; range_end : Position }.

(** One element of the JSON array built by [BuildDiagnostics]. *)
Record Diagnostic := {
  source : string;
  range : Range;
  severity : Z;
  message : string
}.

(** Modelled from the spec: [utils::SplitString] is not among the
    sources; the build log is "split by \n". *)
Fixpoint SplitString_lines (cur : string) (s : string) : list string :=
  match s with
  | EmptyString => [cur]
  | String a s' =>
      if Ascii.eqb a Str.LF then cur :: SplitString_lines "" s'
      else SplitString_lines (cur +:+ String a "") s'
  end.

Definition SplitString (s : string) : list string := SplitString_lines "" s.

(** The body of the loop of [BuildDiagnostics] for the lines still to
    scan: [count] and [diagnostics] are the loop's variables. *)
Fixpoint BuildDiagnostics_loop (m_maxNumberOfProblems : Z) (name : string)
    (errorLines : list string) (count : Z) (diagnostics : list Diagnostic)
    : result (list Diagnostic) :=
  match errorLines with
  | [] => Ok diagnostics
  | errLine :: rest =>
      let matches := search errLine m_regex in
      if negb (size matches =? 7)%nat then
        BuildDiagnostics_loop m_maxNumberOfProblems name rest count diagnostics
      else if count >? m_maxNumberOfProblems then   (* count++ > max: break *)
        Ok diagnostics
      else
        '(source, line, col, severity, message) ← ParseOutput matches;
        let range := {| range_start := {| line := line; character := col |};
                        range_end := {| line := line; character := col |} |} in
        let diagnostic :=
          {| source := if String.eqb name "" then source else name;
             range := range;
             severity := severity;
             message := message |} in
        BuildDiagnostics_loop m_maxNumberOfProblems name rest (count + 1)
                              (diagnostics ++ [diagnostic])
  end.

Definition BuildDiagnostics (m_maxNumberOfProblems : Z)
    (buildLog name : string) : result (list Diagnostic) :=
  BuildDiagnostics_loop m_maxNumberOfProblems name (SplitString buildLog) 0 [].

(** *** Devices

    A [cl::Device] is a handle; every query of the driver may throw
    [cl::Error].  [ICLInfo] is the interface of the device inspector. *)

Record Device := {
  handle : nat;
  CL_DEVICE_MAX_COMPUTE_UNITS : result Z;
  CL_DEVICE_MAX_CLOCK_FREQUENCY : result Z
}.

Record Platform := { getDevices : result (list Device) }.

Class ICLInfo := {
  GetDeviceDescription : Device -> result string;
  GetDeviceID : Device -> result Z
}.

Definition SIZE_MAX : Z := 2 ^ 64 - 1.

(** [GetDevicePowerIndex]: a product of two [size_t]. *)
Definition GetDevicePowerIndex (device : Device) : result Z :=
  maxComputeUnits ← CL_DEVICE_MAX_COMPUTE_UNITS device;
  maxClockFrequency ← CL_DEVICE_MAX_CLOCK_FREQUENCY device;
  mret ((maxComputeUnits * maxClockFrequency) mod (SIZE_MAX + 1)).

(** The engine's state. *)
Record t := {
  m_device : option Device;
  m_BuildOptions : string;
  m_maxNumberOfProblems : Z
}.

Section Selection.
Context `{m_clInfo : ICLInfo}.

(** The [try] block of the device loop: [None] when the device is the
    requested one, its power index otherwise. *)
Definition inspect (identifier : Z) (device : Device) : result (option Z) :=
  _description ← GetDeviceDescription device;
  deviceID ← GetDeviceID device;
  if identifier =? deviceID then mret None
  else powerIndex ← GetDevicePowerIndex device; mret (Some powerIndex).

(** The loop over the devices of one platform. *)
Fixpoint select_among (identifier : Z) (devices : list Device)
    (maxPowerIndex : Z) (selectedDevice : option Device)
    : result (option Device) :=
  match devices with
  | [] => Ok selectedDevice
  | device :: rest =>
      match inspect identifier device with
      | Ok None => Ok (Some device)                          (* break *)
      | Ok (Some powerIndex) =>
          if powerIndex >? maxPowerIndex
          then select_among identifier rest powerIndex (Some device)
          else select_among identifier rest maxPowerIndex selectedDevice
      | Throw e =>
          if is_cl_Error e
          then select_among identifier rest maxPowerIndex selectedDevice
          else Throw e
      end
  end.

(** The loop over the platforms. *)
Fixpoint select_platforms (identifier : Z) (platforms : list Platform)
    (selectedDevice : option Device) : result (option Device) :=
  match platforms with
  | [] => Ok selectedDevice
  | platform :: rest =>
      match getDevices platform with
      | Throw e =>
          if is_cl_Error e then select_platforms identifier rest selectedDevice
          else Throw e
      | Ok [] => select_platforms identifier rest selectedDevice
      | Ok devices =>
          let maxPowerIndex := 0 in
          selectedDevice ← select_among identifier devices maxPowerIndex selectedDevice;
          select_platforms identifier rest selectedDevice
      end
  end.

(** [SetOpenCLDevice]; [Platform_get] is the answer of [cl::Platform::get]. *)
Definition SetOpenCLDevice (Platform_get : result (list Platform))
    (identifier : Z) (d : t) : result t :=
  match Platform_get with
  | Throw e => if is_cl_Error e then Ok d else Throw e
  | Ok [] => Ok d
  | Ok platforms =>
      selectedDevice ← select_platforms identifier platforms None;
      Ok {| m_device := selectedDevice;
            m_BuildOptions := m_BuildOptions d;
            m_maxNumberOfProblems := m_maxNumberOfProblems d |}
  end.

(** The members before the constructor's body runs, and the
    constructor, which selects a device with identifier 0. *)
Definition initial : t :=
  {| m_device := None; m_BuildOptions := ""; m_maxNumberOfProblems := 100 |}.

Definition create (Platform_get : result (list Platform)) : result t :=
  SetOpenCLDevice Platform_get 0 initial.

End Selection.

(** [SetMaxProblemsCount] *)
Definition SetMaxProblemsCount (maxNumberOfProblems : Z) (d : t) : t :=
  {| m_device := m_device d;
     m_BuildOptions := m_BuildOptions d;
     m_maxNumberOfProblems := maxNumberOfProblems |}.

(** Modelled from the spec: [utils::RemoveNullTerminator] is not among
    the sources; it is to "strip any trailing NUL byte". *)
Fixpoint RemoveNullTerminator (s : string) : string :=
  match s with
  | EmptyString => EmptyString
  | String a EmptyString => if Ascii.eqb a Ascii.zero then EmptyString else s
  | String a s' => String a (RemoveNullTerminator s')
  end.

Section Get.
(** [BuildSource] drives the OpenCL compiler: the build log it returns
    for a device, an option string and a source text is the driver's. *)
Variable BuildSource : Device -> string -> string -> string.

(** [Get] with the display name already derived from the file path. *)
Definition Get (d : t) (text srcName : string) : result (list Diagnostic) :=
  match m_device d with
  | None => Throw (runtime_error "missing OpenCL device")
  | Some device =>
      let buildLog := BuildSource device (m_BuildOptions d) text in
      let buildLog := RemoveNullTerminator buildLog in
      BuildDiagnostics (m_maxNumberOfProblems d) buildLog srcName
  end.

End Get.

End Diagnostics.

(** ** JSON values ([nlohmann::json])

    Objects are ordered by key, as the library's [std::map] is; numbers
    are the integers (no claim inspects a fraction). *)

Module Json.

Local Set Warnings "-register-all".

Inductive json : Type :=
| Null
| Boolean (b : bool)
| Number (n : Z)
| Str (s : string)
| Array (items : list json)
| Object (members : list (string * json)).

Definition is_string (j : json) : bool :=
  match j with Str _ => true | _ => false end.

Definition is_null (j : json) : bool :=
  match j with Null => true | _ => false end.

(** [get<std::string>()] *)
Definition get_string (j : json) : result string :=
  match j with
  | Str s => Ok s
  | _ => Throw (json_type_error 302)
  end.

Fixpoint lookup (key : string) (members : list (string * json)) : option json :=
  match members with
  | [] => None
  | (k, v) :: rest => if String.eqb k key then Some v else lookup key rest
  end.

(** Insert or overwrite, keeping the keys in order. *)
Fixpoint store (key : string) (v : json) (members : list (string * json))
    : list (string * json) :=
  match members with
  | [] => [(key, v)]
  | (k, w) :: rest =>
      if String.eqb k key then (k, v) :: rest
      else if String.ltb key k then (key, v) :: (k, w) :: rest
      else (k, w) :: store key v rest
  end.

(** [j[key]] on a mutable value: [null] becomes an object, a missing key
    is inserted with value [null]; the result is the value after the
    access together with the member read. *)
Definition at_mut (j : json) (key : string) : result (json * json) :=
  match j with
  | Null => Ok (Object [(key, Null)], Null)
  | Object members =>
      match lookup key members with
      | Some v => Ok (j, v)
      | None => Ok (Object (store key Null members), Null)
      end
  | _ => Throw (json_type_error 305)
  end.

(** [j[k1][k2]] on a mutable value: the inner access works on a reference
    into [j], so what it inserts is seen in [j]. *)
Definition at_mut2 (j : json) (k1 k2 : string) : result (json * json) :=
  '(j1, inner) ← at_mut j k1;
  '(inner', v) ← at_mut inner k2;
  match j1 with
  | Object members => Ok (Object (store k1 inner' members), v)
  | _ => Ok (j1, v)
  end.

(** [j[key]] on a [const] value.  The library leaves a missing key
    undefined there (an assertion); the model lets it throw. *)
Definition at_const (j : json) (key : string) : result json :=
  match j with
  | Object members =>
      match lookup key members with
      | Some v => Ok v
      | None => Throw (json_type_error 0)
      end
  | _ => Throw (json_type_error 305)
  end.

(** [emplace(key, v)]: no effect when the key is there. *)
Definition emplace (j : json) (key : string) (v : json) : result json :=
  match j with
  | Null => Ok (Object [(key, v)])
  | Object members =>
      match lookup key members with
      | Some _ => Ok j
      | None => Ok (Object (store key v members))
      end
  | _ => Throw (json_type_error 311)
  end.

(** [clear()] *)
Definition clear (j : json) : json :=
  match j with
  | Null => Null
  | Boolean _ => Boolean false
  | Number _ => Number 0
  | Str _ => Str ""
  | Array _ => Array []
  | Object _ => Object []
  end.

(** *** [dump()]: the compact serialisation *)

Definition to_string_nat (n : nat) : string :=
  DecimalString.NilZero.string_of_uint (Nat.to_uint n).

Definition to_string_Z (z : Z) : string :=
  DecimalString.NilZero.string_of_int (Z.to_int z).

Definition hex_digit (n : nat) : ascii :=
  if (n <? 10)%nat then ascii_of_nat (48 + n) else ascii_of_nat (87 + n).

Definition escape_char (a : ascii) : string :=
  let n := nat_of_ascii a in
  if (n =? 34)%nat then "\" +:+ Str.dquote
  else if (n =? 92)%nat then "\\"
  else if (n =? 8)%nat then "\b"
  else if (n =? 12)%nat then "\f"
  else if (n =? 10)%nat then "\n"
  else if (n =? 13)%nat then "\r"
  else if (n =? 9)%nat then "\t"
  else if (n <? 32)%nat then
    "\u00" +:+ String (hex_digit (n / 16)) (String (hex_digit (n mod 16)) "")
  else String a "".

Fixpoint escape (s : string) : string :=
  match s with
  | EmptyString => ""
  | String a s' => escape_char a +:+ escape s'
  end.

Definition quote (s : string) : string := Str.dquote +:+ escape s +:+ Str.dquote.

Fixpoint dump (j : json) : string :=
  match j with
  | Null => "null"
  | Boolean b => if b then "true" else "false"
  | Number n => to_string_Z n
  | Str s => quote s
  | Array items =>
      "[" +:+ (fix elements (l : list json) : string :=
                 match l with
                 | [] => ""
                 | [x] => dump x
                 | x :: rest => dump x +:+ "," +:+ elements rest
                 end) items +:+ "]"
  | Object members =>
      "{" +:+ (fix pairs (l : list (string * json)) : string :=
                 match l with
                 | [] => ""
                 | [(k, v)] => quote k +:+ ":" +:+ dump v
                 | (k, v) :: rest => quote k +:+ ":" +:+ dump v +:+ "," +:+ pairs rest
                 end) members +:+ "}"
  end.

(** *** [json::parse]

    The endpoint is parametric in the library's parser.  [parse_text] is
    a reference parser for JSON texts whose numbers are integers; the
    concrete runs below use it. *)

Class Parser := { parse : string -> result json }.

Definition is_ws (a : ascii) : bool :=
  let n := nat_of_ascii a in
  (n =? 32)%nat || (n =? 9)%nat || (n =? 10)%nat || (n =? 13)%nat.

Fixpoint skip_ws (s : string) : string :=
  match s with
  | String a s' => if is_ws a then skip_ws s' else s
  | EmptyString => s
  end.

Definition unescape (e : ascii) : option ascii :=
  let n := nat_of_ascii e in
  if (n =? 34)%nat || (n =? 92)%nat || (n =? 47)%nat then Some e
  else if Ascii.eqb e "b" then Some (ascii_of_nat 8)
  else if Ascii.eqb e "f" then Some (ascii_of_nat 12)
  else if Ascii.eqb e "n" then Some (ascii_of_nat 10)
  else if Ascii.eqb e "r" then Some (ascii_of_nat 13)
  else if Ascii.eqb e "t" then Some (ascii_of_nat 9)
  else None.

(** The characters of a string literal after its opening quote. *)
Fixpoint parse_chars (s : string) (acc : string) : option (string * string) :=
  match s with
  | EmptyString => None
  | String a s' =>
      if (nat_of_ascii a =? 34)%nat then Some (acc, s')
      else if (nat_of_ascii a =? 92)%nat then
        match s' with
        | String e s'' =>
            match unescape e with
            | Some ch => parse_chars s'' (acc +:+ String ch "")
            | None => None
            end
        | EmptyString => None
        end
      else if (nat_of_ascii a <? 32)%nat then None
      else parse_chars s' (acc +:+ String a "")
  end.

Fixpoint drop_digits (s : string) : string :=
  match s with
  | String a s' => if Str.is_digit a then drop_digits s' else s
  | EmptyString => s
  end.

Definition starts_fraction (s : string) : bool :=
  match s with
  | String a _ => Ascii.eqb a "." || Ascii.eqb a "e" || Ascii.eqb a "E"
  | EmptyString => false
  end.

(** An integer literal: no leading zero, no fraction, no exponent. *)
Definition parse_int (neg : bool) (s : string) : option (json * string) :=
  match s with
  | String a s' =>
      if negb (Str.is_digit a) then None
      else if Ascii.eqb a "0" && Std.leading_digit s' then None
      else
        let rest := drop_digits s in
        if starts_fraction rest then None
        else
          let v := Std.digits_val 0 s in
          Some (Number (if neg then - v else v), rest)
  | EmptyString => None
  end.

Definition keyword (w : string) (v : json) (s : string) : option (json * string) :=
  if Str.starts_with w s
  then Some (v, Str.drop (String.length w) s) else None.

Fixpoint parse_value (fuel : nat) (s : string) : option (json * string) :=
  match fuel with
  | O => None
  | S f =>
      match skip_ws s with
      | EmptyString => None
      | String a rest =>
          if Ascii.eqb a "{" then
            match skip_ws rest with
            | String "}" r => Some (Object [], r)
            | _ => parse_members f rest []
            end
          else if Ascii.eqb a "[" then
            match skip_ws rest with
            | String "]" r => Some (Array [], r)
            | _ => parse_elements f rest []
            end
          else if (nat_of_ascii a =? 34)%nat then
            match parse_chars rest "" with
            | Some (str, r) => Some (Str str, r)
            | None => None
            end
          else if Ascii.eqb a "n" then keyword "null" Null (String a rest)
          else if Ascii.eqb a "t" then keyword "true" (Boolean true) (String a rest)
          else if Ascii.eqb a "f" then keyword "false" (Boolean false) (String a rest)
          else if Ascii.eqb a "-" then parse_int true rest
          else parse_int false (String a rest)
      end
  end
with parse_elements (fuel : nat) (s : string) (acc : list json)
    : option (json * string) :=
  match fuel with
  | O => None
  | S f =>
      match parse_value f s with
      | None => None
      | Some (v, r) =>
          match skip_ws r with
          | String "," r' => parse_elements f r' (acc ++ [v])
          | String "]" r' => Some (Array (acc ++ [v]), r')
          | _ => None
          end
      end
  end
with parse_members (fuel : nat) (s : string) (acc : list (string * json))
    : option (json * string) :=
  match fuel with
  | O => None
  | S f =>
      match skip_ws s with
      | String a r =>
          if negb (nat_of_ascii a =? 34)%nat then None
          else
            match parse_chars r "" with
            | None => None
            | Some (key, r1) =>
                match skip_ws r1 with
                | String ":" r2 =>
                    match parse_value f r2 with
                    | None => None
                    | Some (v, r3) =>
                        match skip_ws r3 with
                        | String "," r4 => parse_members f r4 (store key v acc)
                        | String "}" r4 => Some (Object (store key v acc), r4)
                        | _ => None
                        end
                    end
                | _ => None
                end
            end
      | EmptyString => None
      end
  end.

Definition parse_text (s : string) : result json :=
  match parse_value (S (String.length s)) s with
  | Some (v, rest) =>
      match skip_ws rest with
      | EmptyString => Ok v
      | String _ _ => Throw json_parse_error
      end
  | None => Throw json_parse_error
  end.

End Json.

(** ** JSON-RPC endpoint ([jsonrpc.cpp]) *)

Module JsonRPC.
Import Json.

(** Modelled from the spec: [ErrorCode] is declared in [jsonrpc.hpp],
    which is not among the sources; the values are the table of error
    codes. *)
Inductive ErrorCode : Type :=
| ParseError
| InvalidRequest
| MethodNotFound
| InvalidParams
| InternalError
| NotInitialized.

Definition error_value (e : ErrorCode) : Z :=
  match e with
  | ParseError => -32700
  | InvalidRequest => -32600
  | MethodNotFound => -32601
  | InvalidParams => -32602
  | InternalError => -32603
  | NotInitialized => -32002
  end.

(** A registered callback is run on the message; it may call [Write] and
    it may throw. *)
Record CallbackResult := {
  written : list json;
  raised : option exn
}.

Definition InputCallbackFunc : Type := json -> CallbackResult.

(** What the endpoint does to the outside: bytes handed to the output
    callback and calls of the registered callbacks, in order. *)
Inductive Event : Type :=
| Output (message : string)
| MethodCalled (method : string) (body : json)
| RespondCalled (body : json).

(** Modelled from the spec: [m_headerRegex] is declared in
    [jsonrpc.hpp]; [header_matches] gives, for a buffer, sub-matches 1
    and 2 of the successive matches of that pattern. *)
Class HeaderRegex := { header_matches : string -> list (string * string) }.

Record t := {
  m_method : string;
  m_buffer : string;
  m_body : json;
  m_headers : gmap string string;
  m_callbacks : gmap string InputCallbackFunc;
  m_respondCallback : option InputCallbackFunc;
  m_isProcessing : bool;
  m_initialized : bool;
  m_validHeader : bool;
  m_tracing : bool;
  m_verbosity : bool;
  m_contentLength : Z;
  events : list Event
}.

Definition set_method (v : string) (s : t) : t :=
  {| m_method := v; m_buffer := m_buffer s; m_body := m_body s;
     m_headers := m_headers s; m_callbacks := m_callbacks s;
     m_respondCallback := m_respondCallback s;
     m_isProcessing := m_isProcessing s; m_initialized := m_initialized s;
     m_validHeader := m_validHeader s; m_tracing := m_tracing s;
     m_verbosity := m_verbosity s; m_contentLength := m_contentLength s;
     events := events s |}.

Definition set_buffer (v : string) (s : t) : t :=
  {| m_method := m_method s; m_buffer := v; m_body := m_body s;
     m_headers := m_headers s; m_callbacks := m_callbacks s;
     m_respondCallback := m_respondCallback s;
     m_isProcessing := m_isProcessing s; m_initialized := m_initialized s;
     m_validHeader := m_validHeader s; m_tracing := m_tracing s;
     m_verbosity := m_verbosity s; m_contentLength := m_contentLength s;
     events := events s |}.

Definition set_body (v : json) (s : t) : t :=
  {| m_method := m_method s; m_buffer := m_buffer s; m_body := v;
     m_headers := m_headers s; m_callbacks := m_callbacks s;
     m_respondCallback := m_respondCallback s;
     m_isProcessing := m_isProcessing s; m_initialized := m_initialized s;
     m_validHeader := m_validHeader s; m_tracing := m_tracing s;
     m_verbosity := m_verbosity s; m_contentLength := m_contentLength s;
     events := events s |}.

Definition set_headers (v : gmap string string) (s : t) : t :=
  {| m_method := m_method s; m_buffer := m_buffer s; m_body := m_body s;
     m_headers := v; m_callbacks := m_callbacks s;
     m_respondCallback := m_respondCallback s;
     m_isProcessing := m_isProcessing s; m_initialized := m_initialized s;
     m_validHeader := m_validHeader s; m_tracing := m_tracing s;
     m_verbosity := m_verbosity s; m_contentLength := m_contentLength s;
     events := events s |}.

Definition set_callbacks (v : gmap string InputCallbackFunc) (s : t) : t :=
  {| m_method := m_method s; m_buffer := m_buffer s; m_body := m_body s;
     m_headers := m_headers s; m_callbacks := v;
     m_respondCallback := m_respondCallback s;
     m_isProcessing := m_isProcessing s; m_initialized := m_initialized s;
     m_validHeader := m_validHeader s; m_tracing := m_tracing s;
     m_verbosity := m_verbosity s; m_contentLength := m_contentLength s;
     events := events s |}.

Definition set_respondCallback (v : option InputCallbackFunc) (s : t) : t :=
  {| m_method := m_method s; m_buffer := m_buffer s; m_body := m_body s;
     m_headers := m_headers s; m_callbacks := m_callbacks s;
     m_respondCallback := v;
     m_isProcessing := m_isProcessing s; m_initialized := m_initialized s;
     m_validHeader := m_validHeader s; m_tracing := m_tracing s;
     m_verbosity := m_verbosity s; m_contentLength := m_contentLength s;
     events := events s |}.

Definition set_isProcessing (v : bool) (s : t) : t :=
  {| m_method := m_method s; m_buffer := m_buffer s; m_body := m_body s;
     m_headers := m_headers s; m_callbacks := m_callbacks s;
     m_respondCallback := m_respondCallback s;
     m_isProcessing := v; m_initialized := m_initialized s;
     m_validHeader := m_validHeader s; m_tracing := m_tracing s;
     m_verbosity := m_verbosity s; m_contentLength := m_contentLength s;
     events := events s |}.

Definition set_initialized (v : bool) (s : t) : t :=
  {| m_method := m_method s; m_buffer := m_buffer s; m_body := m_body s;
     m_headers := m_headers s; m_callbacks := m_callbacks s;
     m_respondCallback := m_respondCallback s;
     m_isProcessing := m_isProcessing s; m_initialized := v;
     m_validHeader := m_validHeader s; m_tracing := m_tracing s;
     m_verbosity := m_verbosity s; m_contentLength := m_contentLength s;
     events := events s |}.

Definition set_validHeader (v : bool) (s : t) : t :=
  {| m_method := m_method s; m_buffer := m_buffer s; m_body := m_body s;
     m_headers := m_headers s; m_callbacks := m_callbacks s;
     m_respondCallback := m_respondCallback s;
     m_isProcessing := m_isProcessing s; m_initialized := m_initialized s;
     m_validHeader := v; m_tracing := m_tracing s;
     m_verbosity := m_verbosity s; m_contentLength := m_contentLength s;
     events := events s |}.

Definition set_tracing (v : bool) (s : t) : t :=
  {| m_method := m_method s; m_buffer := m_buffer s; m_body := m_body s;
     m_headers := m_headers s; m_callbacks := m_callbacks s;
     m_respondCallback := m_respondCallback s;
     m_isProcessing := m_isProcessing s; m_initialized := m_initialized s;
     m_validHeader := m_validHeader s; m_tracing := v;
     m_verbosity := m_verbosity s; m_contentLength := m_contentLength s;
     events := events s |}.

Definition set_verbosity (v : bool) (s : t) : t :=
  {| m_method := m_method s; m_buffer := m_buffer s; m_body := m_body s;
     m_headers := m_headers s; m_callbacks := m_callbacks s;
     m_respondCallback := m_respondCallback s;
     m_isProcessing := m_isProcessing s; m_initialized := m_initialized s;
     m_validHeader := m_validHeader s; m_tracing := m_tracing s;
     m_verbosity := v; m_contentLength := m_contentLength s;
     events := events s |}.

Definition set_contentLength (v : Z) (s : t) : t :=
  {| m_method := m_method s; m_buffer := m_buffer s; m_body := m_body s;
     m_headers := m_headers s; m_callbacks := m_callbacks s;
     m_respondCallback := m_respondCallback s;
     m_isProcessing := m_isProcessing s; m_initialized := m_initialized s;
     m_validHeader := m_validHeader s; m_tracing := m_tracing s;
     m_verbosity := m_verbosity s; m_contentLength := v;
     events := events s |}.

Definition emit (e : Event) (s : t) : t :=
  {| m_method := m_method s; m_buffer := m_buffer s; m_body := m_body s;
     m_headers := m_headers s; m_callbacks := m_callbacks s;
     m_respondCallback := m_respondCallback s;
     m_isProcessing := m_isProcessing s; m_initialized := m_initialized s;
     m_validHeader := m_validHeader s; m_tracing := m_tracing s;
     m_verbosity := m_verbosity s; m_contentLength := m_contentLength s;
     events := events s ++ [e] |}.

(** *** The monad of the endpoint's methods: state and exceptions *)

Definition M (A : Type) : Type := t -> result A * t.

#[global] Instance M_ret : MRet M := fun A a s => (Ok a, s).
#[global] Instance M_bind : MBind M := fun A B f m s =>
  match m s with
  | (Ok a, s') => f a s'
  | (Throw e, s') => (Throw e, s')
  end.

Definition get {A : Type} (f : t -> A) : M A := fun s => (Ok (f s), s).
Definition modify (f : t -> t) : M unit := fun s => (Ok tt, f s).
Definition throw {A : Type} (e : exn) : M A := fun s => (Throw e, s).
Definition lift {A : Type} (r : result A) : M A := fun s => (r, s).

(** [try { body } catch (std::exception&) { handler }] *)
Definition try_catch {A : Type} (body : M A) (handler : exn -> M A) : M A :=
  fun s =>
    match body s with
    | (Ok a, s') => (Ok a, s')
    | (Throw e, s') => handler e s'
    end.

Fixpoint for_each {A : Type} (f : A -> M unit) (l : list A) : M unit :=
  match l with
  | [] => mret tt
  | x :: rest => f x ≫= fun _ => for_each f rest
  end.

(** *** The methods *)

Definition LE : string := String Str.CR (String Str.LF "").

(** [RegisterMethodCallback], [RegisterInputCallback].  The output
    callback is the [events] log: every message handed to it is recorded
    as an [Output]. *)
Definition RegisterMethodCallback (method : string) (func : InputCallbackFunc)
    : M unit :=
  modify (fun s => set_callbacks (<[method := func]> (m_callbacks s)) s).

Definition RegisterInputCallback (func : InputCallbackFunc) : M unit :=
  modify (set_respondCallback (Some func)).

(** [IsReady] *)
Definition IsReady (s : t) : bool := negb (m_isProcessing s).

(** The framed message [Write] builds for a body. *)
Definition frame (content : string) : string :=
  ("Content-Length: " +:+ to_string_nat (String.length content) +:+ LE)
  +:+ ("Content-Type: application/vscode-jsonrpc;charset=utf-8" +:+ LE)
  +:+ LE
  +:+ content.

(** [Write]: a failure to build the message is logged, nothing is sent. *)
Definition Write (data : json) : M unit :=
  match emplace data "jsonrpc" (Str "2.0") with
  | Ok body => modify (emit (Output (frame (dump body))))
  | Throw _ => mret tt
  end.

(** [Reset] *)
Definition Reset : M unit :=
  modify (fun s =>
    set_isProcessing true
   (set_contentLength 0
   (set_validHeader false
   (set_headers ∅
   (set_body (clear (m_body s))
   (set_buffer ""
   (set_method "" s))))))).

Definition error_object (errorCode : ErrorCode) (message : string) : json :=
  Object [("error", Object [("code", Number (error_value errorCode));
                            ("message", Str message)])].

(** [WriteError] *)
Definition WriteError (errorCode : ErrorCode) (message : string) : M unit :=
  Write (error_object errorCode message).


(** [m_body[k1][k2]]: the access may insert into [m_body]. *)
Definition body_at2 (k1 k2 : string) : M json :=
  body ← get m_body;
  '(body', v) ← lift (at_mut2 body k1 k2);
  _ ← modify (set_body body');
  mret v.

Definition set_trace_flags (traceValue : string) : M unit :=
  _ ← modify (set_tracing (negb (String.eqb traceValue "off")));
  modify (set_verbosity (String.eqb traceValue "verbose")).

(** [OnInitialize] *)
Definition OnInitialize : M unit :=
  try_catch
    (v ← body_at2 "params" "trace";
     traceValue ← lift (get_string v);
     _ ← set_trace_flags traceValue;
     modify (set_initialized true))
    (fun _err => mret tt).

(** [OnTracingChanged]: [data] is a [const] reference. *)
Definition OnTracingChanged (data : json) : M unit :=
  try_catch
    (params ← lift (at_const data "params");
     v ← lift (at_const params "value");
     traceValue ← lift (get_string v);
     set_trace_flags traceValue)
    (fun _err => mret tt).

(** Running a registered callback: the call is recorded, then what the
    callback writes, then its exception if it throws one. *)
Definition invoke (called : Event) (callback : InputCallbackFunc) (body : json)
    : M unit :=
  _ ← modify (emit called);
  _ ← for_each Write (written (callback body));
  match raised (callback body) with
  | Some e => throw e
  | None => mret tt
  end.

Section Endpoint.
Context `{Parser} `{HeaderRegex}.

(** [ReadHeader]: [std::stoi] may throw out of it. *)
Definition ReadHeader : M bool :=
  buffer ← get m_buffer;
  let matches := header_matches buffer in
  _ ← for_each (fun '(key, value) =>
        _ ← (if String.eqb key "Content-Length"
             then n ← lift (Std.stoi value); modify (set_contentLength n)
             else mret tt);
        modify (fun s => set_headers (<[key := value]> (m_headers s)) s))
      matches;
  mret (negb (Nat.eqb (List.length matches) 0)).

(** [FireRespondCallback] *)
Definition FireRespondCallback : M unit :=
  respondCallback ← get m_respondCallback;
  match respondCallback with
  | Some callback =>
      body ← get m_body;
      invoke (RespondCalled body) callback body
  | None => mret tt
  end.

(** [FireMethodCallback] *)
Definition FireMethodCallback : M unit :=
  method ← get m_method;
  callbacks ← get m_callbacks;
  match callbacks !! method with
  | None =>
      id ← body_at2 "params" "id";
      let isRequest := negb (is_null id) in
      let mustRespond := isRequest || negb (Str.starts_with "$/" method) in
      if mustRespond : bool
      then WriteError MethodNotFound ("Method '" +:+ method +:+ "' is not supported.")
      else mret tt
  | Some callback =>
      body ← get m_body;
      try_catch (invoke (MethodCalled method body) callback body)
                (fun _err => mret tt)
  end.

(** The [try] block of [Consume]; [false] is its early [return]. *)
Definition dispatch : M bool :=
  buffer ← get m_buffer;
  body ← lift (parse buffer);
  _ ← modify (set_body body);
  '(body', method) ← lift (at_mut body "method");
  _ ← modify (set_body body');
  if is_string method then
    name ← lift (get_string method);
    _ ← modify (set_method name);
    if String.eqb name "initialize" then
      _ ← OnInitialize;
      _ ← FireMethodCallback;
      _ ← modify (set_isProcessing false);
      mret true
    else
      initialized ← get m_initialized;
      if negb initialized then
        _ ← WriteError NotInitialized "Server was not initialized.";
        mret false
      else
        _ ← (if String.eqb name "$/setTrace"
             then b ← get m_body; OnTracingChanged b
             else mret tt);
        _ ← FireMethodCallback;
        _ ← modify (set_isProcessing false);
        mret true
  else
    _ ← FireRespondCallback;
    _ ← modify (set_isProcessing false);
    mret true.

(** The [try] block of [Consume] with its [catch] clause: what happens
    to a buffer that holds a whole body. *)
Definition process_body : M unit :=
  try_catch (_ ← dispatch; mret tt)
    (fun _e =>
       _ ← modify (set_buffer "");
       WriteError ParseError "Failed to parse request").

(** [Consume] *)
Definition Consume (c : ascii) : M unit :=
  _ ← modify (fun s => set_buffer (m_buffer s +:+ String c "") s);
  validHeader ← get m_validHeader;
  if validHeader : bool then
    buffer ← get m_buffer;
    contentLength ← get m_contentLength;
    if negb (Z.of_nat (String.length buffer) =? contentLength) then mret tt
    else process_body
  else
    found ← ReadHeader;
    _ ← (if found : bool then modify (set_buffer "") else mret tt);
    buffer ← get m_buffer;
    if String.eqb buffer LE then
      _ ← modify (set_buffer "");
      contentLength ← get m_contentLength;
      _ ← modify (set_validHeader (0 <? contentLength));
      if 0 <? contentLength then mret tt
      else WriteError InvalidRequest "Invalid content length"
    else mret tt.

(** Feeding a string byte by byte, as the byte pump and the tests do. *)
Fixpoint Send (request : string) : M unit :=
  match request with
  | EmptyString => mret tt
  | String c rest => _ ← Consume c; Send rest
  end.

End Endpoint.

(** Modelled from the spec: the member initialisers are in
    [jsonrpc.hpp]; a new endpoint is in the state [Reset] establishes,
    not initialised, not tracing, with nothing registered. *)
Definition fresh : t :=
  {| m_method := ""; m_buffer := ""; m_body := Null;
     m_headers := ∅; m_callbacks := ∅; m_respondCallback := None;
     m_isProcessing := true; m_initialized := false;
     m_validHeader := false; m_tracing := false; m_verbosity := false;
     m_contentLength := 0; events := [] |}.

(** Modelled from the spec: the header pattern, matched on each line
    that a CRLF ends.  The pattern text follows. *)
Definition header_pattern : string := "^([^:]+):\s*(.+?)\s*$".

Definition header_regex : Regex.regex :=
  let colon := Ascii.eqb ":" in
  let space := Regex.Star (Regex.Chr Str.is_space) in
  Regex.Seq Regex.Bol
 (Regex.Seq (Regex.Group 1 (Regex.Plus (Regex.Chr (fun a => negb (colon a)))))
 (Regex.Seq (Regex.Lit ":")
 (Regex.Seq space
 (Regex.Seq (Regex.Group 2 (Regex.PlusLazy Regex.Dot))
 (Regex.Seq space
            Regex.Eol))))).

Definition spec_header_matches (buffer : string) : list (string * string) :=
  match Str.strip_suffix LE buffer with
  | None => []
  | Some line =>
      let m := Regex.search line header_regex in
      if Nat.eqb (Regex.size m) 0 then []
      else [(Regex.str m 1, Regex.str m 2)]
  end.

End JsonRPC.

(** ** Reference instances and inputs of the test suite *)

Module Scenario.
Import Json JsonRPC.

#[export] Instance reference_parser : Parser := {| parse := parse_text |}.
#[export] Instance spec_headers : HeaderRegex :=
  {| header_matches := spec_header_matches |}.

(** [BuildRequest] of [tests/main.cpp] *)
Definition BuildRequest (content : string) : string :=
  ("Content-Length: " +:+ to_string_nat (String.length content) +:+ LE)
  +:+ ("Content-Type: application/vscode-jsonrpc;charset=utf-8" +:+ LE)
  +:+ LE
  +:+ content.

(** The bodies the tests send, and variations of them. *)
Definition didOpen_body : string :=
  Str.dq "{'id':0,'jsonrpc':'2.0','method':'textDocument/didOpen','params':null}".

Definition initialize_body : string :=
  Str.dq "{'id':0,'jsonrpc':'2.0','method':'initialize','params':{'processId':60650,'trace':'off'}}".



Definition progress_request_body : string :=
  Str.dq "{'id':7,'jsonrpc':'2.0','method':'$/foo','params':{}}".

Definition malformed_body : string :=
  Str.dq "{'jsonrpc: 2.0', 'id':0, [method]: 'initialize'}".

(** A callback that does nothing, as the tests register for
    "initialize". *)
Definition idle_callback : InputCallbackFunc :=
  fun _ => {| written := []; raised := None |}.

(** [InitializeJsonRPC] of the tests: register the callback, send the
    [initialize] request, then [Reset]. *)
Definition InitializeJsonRPC : M unit :=
  _ ← RegisterMethodCallback "initialize" idle_callback;
  _ ← Send (BuildRequest initialize_body);
  Reset.

Definition initialized_endpoint : t := snd (InitializeJsonRPC fresh).

(** The endpoint [s] after all bytes of a request but the last one. *)
Definition all_but_last (request : string) : string :=
  Str.take (String.length request - 1) request.

Definition before_last_byte (request : string) (s : t) : t :=
  snd (Send (all_but_last request) s).

End Scenario.

(** ** Statements about the endpoint: auxiliary definitions *)

Module JsonRPCSpec.
Import Json JsonRPC.

(** The bytes [WriteError] hands to the output callback. *)
Definition error_response (errorCode : ErrorCode) (message : string) : string :=
  frame (dump (Object [("error", Object [("code", Number (error_value errorCode));
                                         ("message", Str message)]);
                       ("jsonrpc", Str "2.0")])).


(** The fields no callback, no [Write] and no access to [m_body] touch. *)
Definition control (s : t) :=
  (m_isProcessing s, m_initialized s, m_validHeader s, m_tracing s,
   m_verbosity s, m_contentLength s, m_method s, m_buffer s).


End JsonRPCSpec.

(** ** Statements about the matcher: auxiliary definitions *)

Module RegexSpec.
Import Regex.

(** The declarative reading of a pattern: [Matches n0 r s c s' c'] when
    [r] can take the matcher from the remaining input [s] with captures
    [c] to the remaining input [s'] with captures [c']. *)
Inductive Matches (n0 : nat)
    : regex -> string -> captures -> string -> captures -> Prop :=
| M_Eps s c : Matches n0 Eps s c s c
| M_Chr p a s c : p a = true -> Matches n0 (Chr p) (String a s) c s c
| M_Bol s c : String.length s = n0 -> Matches n0 Bol s c s c
| M_Eol c : Matches n0 Eol "" c "" c
| M_Seq r1 r2 s c s1 c1 s2 c2 :
    Matches n0 r1 s c s1 c1 -> Matches n0 r2 s1 c1 s2 c2 ->
    Matches n0 (Seq r1 r2) s c s2 c2
| M_AltL r1 r2 s c s' c' :
    Matches n0 r1 s c s' c' -> Matches n0 (Alt r1 r2) s c s' c'
| M_AltR r1 r2 s c s' c' :
    Matches n0 r2 s c s' c' -> Matches n0 (Alt r1 r2) s c s' c'
| M_Star0 r s c : Matches n0 (Star r) s c s c
| M_StarS r s c s1 c1 s2 c2 :
    Matches n0 r s c s1 c1 ->
    (String.length s1 < String.length s)%nat ->
    Matches n0 (Star r) s1 c1 s2 c2 ->
    Matches n0 (Star r) s c s2 c2
| M_Lazy0 r s c : Matches n0 (StarLazy r) s c s c
| M_LazyS r s c s1 c1 s2 c2 :
    Matches n0 r s c s1 c1 ->
    (String.length s1 < String.length s)%nat ->
    Matches n0 (StarLazy r) s1 c1 s2 c2 ->
    Matches n0 (StarLazy r) s c s2 c2
| M_Group i r s c s' c' :
    Matches n0 r s c s' c' ->
    Matches n0 (Group i r) s c s' (<[i := Str.consumed s s']> c').

(** [r] can match from [s] to [s'], whatever the captures are. *)
Definition CanMatch (n0 : nat) (r : regex) (s s' : string) : Prop :=
  forall c, exists c', Matches n0 r s c s' c'.

(** The greedy star of a character class, by recursion on the input:
    take the character when the class has it and the rest succeeds. *)
Fixpoint greedy (p : ascii -> bool) (k : cont) (s : string) (c : captures)
    : option captures :=
  match s with
  | String a s' =>
      if p a then
        match greedy p k s' c with
        | Some res => Some res
        | None => k s c
        end
      else k s c
  | EmptyString => k s c
  end.

End RegexSpec.

(** ** Statements about the build-log parser: auxiliary definitions *)

Module DiagnosticsSpec.
Import Regex Diagnostics.

(** Text without a line terminator, which is what [.] accepts. *)
Definition one_line (s : string) : bool :=
  Str.all (fun a => negb (Str.is_line_terminator a)) s.

Definition no_LF (s : string) : bool :=
  Str.all (fun a => negb (Ascii.eqb a Str.LF)) s.

Definition no_colon (s : string) : bool :=
  Str.all (fun a => negb (Ascii.eqb ":" a)) s.

(** The number of colons of a text. *)
Fixpoint colons (s : string) : nat :=
  match s with
  | EmptyString => 0
  | String a s' => ((if Ascii.eqb ":" a then 1 else 0) + colons s')%nat
  end.

(** A non-empty run of decimal digits. *)
Definition is_numeral (s : string) : bool :=
  Str.all Str.is_digit s && negb (String.eqb s "").

(** The severity phrases [m_regex] accepts. *)
Definition phrases : list string := ["error"; "fatal error"; "warning"; "Scholar"].

Definition location (L C sev M : string) : string :=
  ":" +:+ L +:+ ":" +:+ C +:+ ": " +:+ sev +:+ ": " +:+ M.

Definition log_line (src L C sev M : string) : string :=
  src +:+ location L C sev M.

(** [line] reads as [src:L:C: sev: M]. *)
Definition LogLine (line src L C sev M : string) : Prop :=
  line = log_line src L C sev M
  /\ one_line src = true
  /\ is_numeral L = true
  /\ is_numeral C = true
  /\ In sev phrases
  /\ one_line M = true.

(** [m_regex] after its first group. *)
Definition m_regex_tail : regex :=
  Seq (Lit ":")
 (Seq (Group 2 (Plus Digit))
 (Seq (Lit ":")
 (Seq (Group 3 (Plus Digit))
 (Seq (Lit ": ")
 (Seq (Group 4 (Alt (Seq (Opt (Group 5 (Lit "fatal "))) (Lit "error"))
               (Alt (Lit "warning")
                    (Lit "Scholar"))))
 (Seq (Lit ": ")
 (Seq (Group 6 (Star Dot))
      Eol))))))).

(** The continuation of the first group in a search of [line]. *)
Definition whole_match (line : string) : cont :=
  fun s' c' => accept s' (<[0%nat := Str.consumed line s']> c').

Definition after_source (line : string) : cont :=
  fun s' c' =>
    exec m_regex_tail (String.length line) (whole_match line) s'
         (<[1%nat := Str.consumed line s']> c').


(** A diagnostic at one point. *)
Definition point_diagnostic (source : string) (l c severity : Z) (message : string)
    : Diagnostic :=
  {| source := source;
     range := {| range_start := {| line := l; character := c |};
                 range_end := {| line := l; character := c |} |};
     severity := severity;
     message := message |}.

End DiagnosticsSpec.

(** ** Build logs and devices for the concrete runs *)

Module DiagnosticsScenario.
Import Diagnostics.



Definition fatal_line : string := "kernel.cl:1:10: fatal error: 'missing.h' file not found".

Definition three_errors_log : string :=
  "k.cl:1:1: error: a" +:+ String Str.LF
 ("k.cl:2:1: error: b" +:+ String Str.LF
  "k.cl:3:1: error: c").

(** An inspector whose device identifier is the handle. *)
#[export] Instance handle_inspector : ICLInfo :=
  {| GetDeviceDescription := fun _ => Ok "device";
     GetDeviceID := fun device => Ok (Z.of_nat (handle device)) |}.

Definition big_gpu : Device :=
  {| handle := 1;
     CL_DEVICE_MAX_COMPUTE_UNITS := Ok 64;
     CL_DEVICE_MAX_CLOCK_FREQUENCY := Ok 1000 |}.

Definition small_cpu : Device :=
  {| handle := 2;
     CL_DEVICE_MAX_COMPUTE_UNITS := Ok 4;
     CL_DEVICE_MAX_CLOCK_FREQUENCY := Ok 1000 |}.

(** Two platforms with one device each, the stronger device first. *)
Definition two_platforms : result (list Platform) :=
  Ok [ {| getDevices := Ok [big_gpu] |}; {| getDevices := Ok [small_cpu] |} ].

(** The two devices of the specification's scenario, on one platform. *)
Definition one_platform : result (list Platform) :=
  Ok [ {| getDevices := Ok [small_cpu; big_gpu] |} ].

(** An engine that holds a device, and a driver that answers every
    build with the same log. *)
Definition engine : t :=
  {| m_device := Some big_gpu; m_BuildOptions := ""; m_maxNumberOfProblems := 100 |}.

Definition constant_driver (log : string) : Device -> string -> string -> string :=
  fun _ _ _ => log.

End DiagnosticsScenario.

(** ** More of the engine: build options *)

Module DiagnosticsOptions.
Import Json Diagnostics.

(** What a range-[for] over a JSON value visits: the elements of an
    array, the values of an object, nothing for [null], and the value
    itself for any other value. *)
Definition items (j : json) : list json :=
  match j with
  | Null => []
  | Array elements => elements
  | Object members => map snd members
  | _ => [j]
  end.

(** The loop of [SetBuildOptions]: every option, then a space. *)
Fixpoint append_options (args : string) (options : list json) : result string :=
  match options with
  | [] => Ok args
  | option :: rest =>
      s ← get_string option;
      append_options ((args +:+ s) +:+ " ") rest
  end.

(** [SetBuildOptions]: a failure is logged and the options are kept. *)
Definition SetBuildOptions (options : json) (d : t) : t :=
  match append_options "" (items options) with
  | Ok args =>
      {| m_device := m_device d;
         m_BuildOptions := args;
         m_maxNumberOfProblems := m_maxNumberOfProblems d |}
  | Throw _ => d
  end.

End DiagnosticsOptions.

(** ** The helpers of the test suite ([tests/main.cpp]) *)

Module Tests.

(** [str.find(pattern)]: the position of the first occurrence. *)
Fixpoint find (pattern str : string) : option nat :=
  if Str.starts_with pattern str then Some O
  else
    match str with
    | EmptyString => None
    | String _ rest =>
        match find pattern rest with
        | Some pos => Some (S pos)
        | None => None
        end
    end.

(** The loop of [ParseResponse]: erase up to and including the first
    delimiter while there is one.  [fuel] bounds the turns. *)
Fixpoint ParseResponse_loop (fuel : nat) (str : string) : string :=
  match fuel with
  | O => str
  | S f =>
      match find JsonRPC.LE str with
      | Some pos =>
          ParseResponse_loop f (Str.drop (pos + String.length JsonRPC.LE) str)
      | None => str
      end
  end.

(** [ParseResponse]: every turn erases two characters at least. *)
Definition ParseResponse (str : string) : string :=
  ParseResponse_loop (String.length str) str.

End Tests.

(** ** Statements about callbacks and whole logs: auxiliary definitions *)

Module ExtraSpec.
Import Json JsonRPC Regex Diagnostics DiagnosticsSpec.

(** The events of the [Write] calls of a callback. *)
Fixpoint outputs_of (written : list json) : list Event :=
  match written with
  | [] => []
  | data :: rest =>
      match emplace data "jsonrpc" (Str "2.0") with
      | Ok body => Output (frame (dump body)) :: outputs_of rest
      | Throw _ => outputs_of rest
      end
  end.

(** Whether [m_regex] finds a match in a line. *)
Definition matches_line (line : string) : bool :=
  match regex_search line m_regex with
  | Some _ => true
  | None => false
  end.

(** The number of lines of a log that [m_regex] matches. *)
Fixpoint matching_lines (lines : list string) : nat :=
  match lines with
  | [] => O
  | line :: rest =>
      ((if matches_line line then 1 else 0) + matching_lines rest)%nat
  end.

(** Every option followed by one space. *)
Fixpoint joined (options : list string) : string :=
  match options with
  | [] => ""
  | option :: rest => option +:+ " " +:+ joined rest
  end.

(** A text holds no CR LF pair. *)
Fixpoint no_CRLF (s : string) : bool :=
  match s with
  | EmptyString => true
  | String a s' => negb (Str.starts_with JsonRPC.LE s) && no_CRLF s'
  end.

(** No character of a text is a control character. *)
Definition printable (s : string) : bool :=
  Str.all (fun a => negb (nat_of_ascii a <? 32)%nat) s.

End ExtraSpec.

(** ** More inputs for the concrete runs *)

Module ExtraScenario.
Import Json JsonRPC Scenario.

(** A callback that writes a notification and then throws. *)
Definition throwing_callback : InputCallbackFunc :=
  fun _ =>
    {| written := [Object [("method", Str "window/logMessage")]];
       raised := Some (runtime_error "handler failed") |}.

Definition response_body : string :=
  Str.dq "{'id':1,'jsonrpc':'2.0','result':null}".

Definition array_body : string := "[1,2]".

Definition positional_params_body : string :=
  Str.dq "{'id':3,'jsonrpc':'2.0','method':'workspace/foo','params':[1]}".

Definition setTrace_body : string :=
  Str.dq "{'jsonrpc':'2.0','method':'$/setTrace','params':{'value':'verbose'}}".


(** Endpoints with a response callback, a quiet one and a throwing one. *)
Definition endpoint_with_response_callback : t :=
  snd (RegisterInputCallback idle_callback fresh).

Definition endpoint_with_throwing_response_callback : t :=
  snd (RegisterInputCallback throwing_callback fresh).

(** A new endpoint after the given header bytes. *)
Definition after_bytes (bytes : string) : t := snd (Send bytes fresh).

Definition CRs : string := String Str.CR "".

(** Platforms of one device each, and one without a device. *)
Definition gpu_platform : Diagnostics.Platform :=
  {| Diagnostics.getDevices := Ok [DiagnosticsScenario.big_gpu] |}.

Definition cpu_platform : Diagnostics.Platform :=
  {| Diagnostics.getDevices := Ok [DiagnosticsScenario.small_cpu] |}.

Definition empty_platform : Diagnostics.Platform :=
  {| Diagnostics.getDevices := Ok [] |}.

(** A line number beyond [INT_MAX]. *)
Definition overflow_line : string := "k.cl:99999999999:1: error: a".

Definition plain_log : string :=
  "Compilation started" +:+ String Str.LF "Done.".

End ExtraScenario.
(** * Facts about strings *)

Section StringFacts.
Local Open Scope list_scope.

Lemma str_app_cons a (s t : string) : String a s +:+ t = String a (s +:+ t).
Proof. reflexivity. Qed.

Lemma str_app_nil_l (s : string) : "" +:+ s = s.
Proof. reflexivity. Qed.

Lemma str_app_nil_r (s : string) : s +:+ "" = s.
Proof. induction s as [|a s IH]; [reflexivity|]. rewrite str_app_cons, IH. reflexivity. Qed.

Lemma str_app_assoc (s t u : string) : (s +:+ t) +:+ u = s +:+ (t +:+ u).
Proof.
  induction s as [|a s IH]; [reflexivity|]. rewrite !str_app_cons, IH. reflexivity.
Qed.

Lemma str_length_app (s t : string) :
  String.length (s +:+ t) = (String.length s + String.length t)%nat.
Proof.
  induction s as [|a s IH]; [reflexivity|]. rewrite str_app_cons. simpl. rewrite IH.
  reflexivity.
Qed.

(** Two ways to cut one text: the longer prefix extends the shorter. *)
Lemma str_app_eq_cut (u : string) : forall u' t t',
  u +:+ t = u' +:+ t' ->
  (String.length u <= String.length u')%nat ->
  exists w, u' = u +:+ w /\ t = w +:+ t'.
Proof.
  induction u as [|a u IH]; intros u' t t' E Hlen.
  - exists u'. rewrite !str_app_nil_l in *. auto.
  - destruct u' as [|b u']; [simpl in Hlen; lia|].
    rewrite !str_app_cons in E. injection E as <- E. simpl in Hlen.
    destruct (IH u' t t' E) as (w & -> & ->); [lia|].
    exists w. auto.
Qed.

Lemma str_app_eq_same_length (u u' t t' : string) :
  u +:+ t = u' +:+ t' -> String.length u = String.length u' ->
  u = u' /\ t = t'.
Proof.
  intros E Hlen. destruct (str_app_eq_cut u u' t t' E) as (w & -> & ->); [lia|].
  rewrite str_length_app in Hlen. destruct w; [|simpl in Hlen; lia].
  rewrite str_app_nil_r, str_app_nil_l. auto.
Qed.

Lemma str_all_impl (p q : ascii -> bool) (s : string) :
  (forall a, p a = true -> q a = true) ->
  Str.all p s = true -> Str.all q s = true.
Proof.
  intros Hpq. induction s as [|a s IH]; simpl; [auto|].
  intros H. apply andb_prop in H as [Ha Hs]. rewrite (Hpq a Ha), (IH Hs). reflexivity.
Qed.

Lemma str_all_app (p : ascii -> bool) (s t : string) :
  Str.all p (s +:+ t) = Str.all p s && Str.all p t.
Proof.
  induction s as [|a s IH]; [reflexivity|]. rewrite str_app_cons. simpl.
  rewrite IH, andb_assoc. reflexivity.
Qed.

End StringFacts.

(** * Facts about the matcher *)

Section RegexFacts.
Import Regex RegexSpec.
Local Open Scope list_scope.

Lemma str_take_app (u t : string) : Str.take (String.length u) (u +:+ t) = u.
Proof.
  induction u as [|a u IH]; simpl.
  - destruct t; reflexivity.
  - f_equal. exact IH.
Qed.

Lemma str_consumed_app (u t : string) : Str.consumed (u +:+ t) t = u.
Proof.
  unfold Str.consumed. rewrite str_length_app.
  replace (String.length u + String.length t - String.length t)%nat
    with (String.length u) by lia.
  apply str_take_app.
Qed.

Variable n0 : nat.

(** Continuations that agree give the same result. *)
Lemma star_loop_ext (step : cont -> cont) :
  (forall k1 k2, (forall s c, k1 s c = k2 s c) ->
                 forall s c, step k1 s c = step k2 s c) ->
  forall k1 k2, (forall s c, k1 s c = k2 s c) ->
  forall fuel s c, star_loop step k1 fuel s c = star_loop step k2 fuel s c.
Proof.
  intros Hstep k1 k2 Hk fuel.
  induction fuel as [|f IH]; intros s c; simpl; [apply Hk|].
  rewrite (Hstep _ (fun s' c' =>
             if (String.length s' <? String.length s)%nat
             then star_loop step k2 f s' c' else None)).
  - rewrite Hk. reflexivity.
  - intros s' c'. destruct (_ <? _)%nat; [apply IH | reflexivity].
Qed.

Lemma lazy_loop_ext (step : cont -> cont) :
  (forall k1 k2, (forall s c, k1 s c = k2 s c) ->
                 forall s c, step k1 s c = step k2 s c) ->
  forall k1 k2, (forall s c, k1 s c = k2 s c) ->
  forall fuel s c, lazy_loop step k1 fuel s c = lazy_loop step k2 fuel s c.
Proof.
  intros Hstep k1 k2 Hk fuel.
  induction fuel as [|f IH]; intros s c; simpl; [apply Hk|].
  rewrite Hk. destruct (k2 s c); [reflexivity|].
  apply Hstep. intros s' c'. destruct (_ <? _)%nat; [apply IH | reflexivity].
Qed.

Lemma exec_ext r : forall k1 k2,
  (forall s c, k1 s c = k2 s c) ->
  forall s c, exec r n0 k1 s c = exec r n0 k2 s c.
Proof.
  induction r as [|p| | |r1 IH1 r2 IH2|r1 IH1 r2 IH2|r IH|r IH|i r IH];
    intros k1 k2 Hk s c; cbn [exec].
  - apply Hk.
  - destruct s as [|a s]; [reflexivity|]. destruct (p a); [apply Hk|reflexivity].
  - destruct (_ =? _)%nat; [apply Hk|reflexivity].
  - destruct s; [apply Hk|reflexivity].
  - apply IH1. intros s' c'. apply IH2, Hk.
  - rewrite (IH1 k1 k2 Hk). rewrite (IH2 k1 k2 Hk). reflexivity.
  - apply star_loop_ext; [exact IH | exact Hk].
  - apply lazy_loop_ext; [exact IH | exact Hk].
  - apply IH. intros s' c'. apply Hk.
Qed.

(** More fuel than the input is long is as good as any. *)
Lemma star_loop_fuel r k : forall f1 f2 s c,
  (String.length s < f1)%nat -> (String.length s < f2)%nat ->
  star_loop (exec r n0) k f1 s c = star_loop (exec r n0) k f2 s c.
Proof.
  induction f1 as [|f1 IH]; intros f2 s c H1 H2; [lia|].
  destruct f2 as [|f2]; [lia|]. simpl.
  rewrite (exec_ext r _ (fun s' c' =>
             if (String.length s' <? String.length s)%nat
             then star_loop (exec r n0) k f2 s' c' else None)); [reflexivity|].
  intros s' c'. destruct (Nat.ltb_spec (String.length s') (String.length s));
    [|reflexivity].
  apply IH; lia.
Qed.

Lemma lazy_loop_fuel r k : forall f1 f2 s c,
  (String.length s < f1)%nat -> (String.length s < f2)%nat ->
  lazy_loop (exec r n0) k f1 s c = lazy_loop (exec r n0) k f2 s c.
Proof.
  induction f1 as [|f1 IH]; intros f2 s c H1 H2; [lia|].
  destruct f2 as [|f2]; [lia|]. simpl.
  destruct (k s c); [reflexivity|].
  apply exec_ext.
  intros s' c'. destruct (Nat.ltb_spec (String.length s') (String.length s));
    [|reflexivity].
  apply IH; lia.
Qed.

(** Soundness: a result of the matcher comes from a declarative match
    followed by the continuation. *)
Lemma star_loop_sound r k
  (IH : forall k s c res, exec r n0 k s c = Some res ->
        exists s' c', Matches n0 r s c s' c' /\ k s' c' = Some res) :
  forall fuel s c res,
    star_loop (exec r n0) k fuel s c = Some res ->
    exists s' c', Matches n0 (Star r) s c s' c' /\ k s' c' = Some res.
Proof.
  induction fuel as [|f IHf]; intros s c res; simpl.
  - intros Hk. exists s, c. split; [constructor | exact Hk].
  - destruct (exec r n0 _ s c) as [res'|] eqn:E.
    + intros [= <-]. apply IH in E as (s1 & c1 & Hm & Hk).
      destruct (Nat.ltb_spec (String.length s1) (String.length s)); [|discriminate].
      apply IHf in Hk as (s2 & c2 & Hm2 & Hk2).
      exists s2, c2. split; [|exact Hk2]. eapply M_StarS; eauto.
    + intros Hk. exists s, c. split; [constructor | exact Hk].
Qed.

Lemma lazy_loop_sound r k
  (IH : forall k s c res, exec r n0 k s c = Some res ->
        exists s' c', Matches n0 r s c s' c' /\ k s' c' = Some res) :
  forall fuel s c res,
    lazy_loop (exec r n0) k fuel s c = Some res ->
    exists s' c', Matches n0 (StarLazy r) s c s' c' /\ k s' c' = Some res.
Proof.
  induction fuel as [|f IHf]; intros s c res; simpl.
  - intros Hk. exists s, c. split; [constructor | exact Hk].
  - destruct (k s c) as [res'|] eqn:Ek.
    + intros [= <-]. exists s, c. split; [constructor | exact Ek].
    + intros E. apply IH in E as (s1 & c1 & Hm & Hk).
      destruct (Nat.ltb_spec (String.length s1) (String.length s)); [|discriminate].
      apply IHf in Hk as (s2 & c2 & Hm2 & Hk2).
      exists s2, c2. split; [|exact Hk2]. eapply M_LazyS; eauto.
Qed.

Lemma exec_sound r : forall k s c res,
  exec r n0 k s c = Some res ->
  exists s' c', Matches n0 r s c s' c' /\ k s' c' = Some res.
Proof.
  induction r as [|p| | |r1 IH1 r2 IH2|r1 IH1 r2 IH2|r IH|r IH|i r IH];
    intros k s c res; cbn [exec].
  - intros Hk. exists s, c. split; [constructor | exact Hk].
  - destruct s as [|a s]; [discriminate|].
    destruct (p a) eqn:Hp; [|discriminate].
    intros Hk. exists s, c. split; [constructor; exact Hp | exact Hk].
  - destruct (Nat.eqb_spec (String.length s) n0); [|discriminate].
    intros Hk. exists s, c. split; [constructor; assumption | exact Hk].
  - destruct s; [|discriminate].
    intros Hk. exists "", c. split; [constructor | exact Hk].
  - intros E. apply IH1 in E as (s1 & c1 & Hm1 & E).
    apply IH2 in E as (s2 & c2 & Hm2 & Hk).
    exists s2, c2. split; [econstructor; eauto | exact Hk].
  - destruct (exec r1 n0 k s c) as [res'|] eqn:E.
    + intros [= <-]. apply IH1 in E as (s1 & c1 & Hm & Hk).
      exists s1, c1. split; [apply M_AltL; exact Hm | exact Hk].
    + intros E2. apply IH2 in E2 as (s1 & c1 & Hm & Hk).
      exists s1, c1. split; [apply M_AltR; exact Hm | exact Hk].
  - apply star_loop_sound. exact IH.
  - apply lazy_loop_sound. exact IH.
  - intros E. apply IH in E as (s1 & c1 & Hm & Hk).
    exists s1, (<[i := Str.consumed s s1]> c1).
    split; [constructor; exact Hm | exact Hk].
Qed.

(** Completeness: a declarative match whose continuation succeeds makes
    the matcher succeed (on that path or on an earlier one). *)
Lemma exec_complete r s c s' c' :
  Matches n0 r s c s' c' ->
  forall k, (forall c'', is_Some (k s' c'')) ->
  forall c0, is_Some (exec r n0 k s c0).
Proof.
  induction 1 as [s c|p a s c Hp|s c Hlen|c
                  |r1 r2 s c s1 c1 s2 c2 _ IH1 _ IH2
                  |r1 r2 s c s' c' _ IH|r1 r2 s c s' c' _ IH
                  |r s c|r s c s1 c1 s2 c2 _ IH1 Hlt _ IH2
                  |r s c|r s c s1 c1 s2 c2 _ IH1 Hlt _ IH2
                  |i r s c s' c' _ IH];
    intros k Hk c0; cbn [exec].
  - apply Hk.
  - rewrite Hp. apply Hk.
  - apply Nat.eqb_eq in Hlen. rewrite Hlen. apply Hk.
  - apply Hk.
  - apply IH1. intros c''. apply IH2, Hk.
  - destruct (exec r1 n0 k s c0) eqn:E; [eauto|].
    specialize (IH k Hk c0). rewrite E in IH. destruct IH; discriminate.
  - destruct (exec r1 n0 k s c0); [eauto|]. apply IH, Hk.
  - simpl. destruct (exec r n0 _ s c0); [eauto|]. apply Hk.
  - simpl.
    match goal with |- is_Some (match exec r n0 ?K s c0 with _ => _ end) =>
      assert (HI : is_Some (exec r n0 K s c0)) end.
    { apply IH1. intros c''. cbv beta.
      pose proof Hlt as Hlt'. apply Nat.ltb_lt in Hlt'. rewrite Hlt'.
      rewrite (star_loop_fuel r k _ (S (String.length s1))) by lia.
      apply (IH2 k Hk c''). }
    destruct HI as [x ->]. eauto.
  - simpl. destruct (k s c0) eqn:E; [eauto|].
    specialize (Hk c0). rewrite E in Hk. destruct Hk; discriminate.
  - simpl. destruct (k s c0); [eauto|].
    apply IH1. intros c''. cbv beta.
    pose proof Hlt as Hlt'. apply Nat.ltb_lt in Hlt'. rewrite Hlt'.
    rewrite (lazy_loop_fuel r k _ (S (String.length s1))) by lia.
    apply (IH2 k Hk c'').
  - apply IH. intros c''. apply Hk.
Qed.

(** *** The greedy star of a character class *)

Lemma star_chr_greedy p k : forall fuel s c,
  (String.length s < fuel)%nat ->
  star_loop (exec (Chr p) n0) k fuel s c = greedy p k s c.
Proof.
  induction fuel as [|f IH]; intros s c Hf; [lia|].
  destruct s as [|a s]; cbn [star_loop exec greedy]; [reflexivity|].
  destruct (p a); [|reflexivity].
  assert (Hlt : (String.length s <? String.length (String a s))%nat = true)
    by (apply Nat.ltb_lt; simpl; lia).
  rewrite Hlt. rewrite IH by (simpl in Hf; lia). reflexivity.
Qed.

(** When the greedy star fails, every way to stop fails. *)
Lemma greedy_None p k c : forall s,
  greedy p k s c = None ->
  forall u t, s = u +:+ t -> Str.all p u = true -> k t c = None.
Proof.
  induction s as [|a s IH]; intros Hg u t Hs Hu.
  - destruct u; [|discriminate]. rewrite str_app_nil_l in Hs. subst t. exact Hg.
  - simpl in Hg. destruct u as [|b u].
    + rewrite str_app_nil_l in Hs. subst t.
      destruct (p a); [|exact Hg]. destruct (greedy p k s c); [discriminate|exact Hg].
    + rewrite str_app_cons in Hs. injection Hs as <- Hs. simpl in Hu.
      apply andb_prop in Hu as [Hb Hu]. rewrite Hb in Hg.
      destruct (greedy p k s c) eqn:E; [discriminate|].
      eapply IH; eauto.
Qed.

(** When it succeeds, it stops at the longest prefix after which the
    continuation succeeds. *)
Lemma greedy_spec p k c : forall s res,
  greedy p k s c = Some res ->
  exists u t, s = u +:+ t /\ Str.all p u = true /\ k t c = Some res
    /\ forall u' t', s = u' +:+ t' -> Str.all p u' = true ->
          (String.length u < String.length u')%nat -> k t' c = None.
Proof.
  induction s as [|a s IH]; intros res Hg.
  - exists "", "". repeat split; [exact Hg|].
    intros u' t' Hs _ Hlen. destruct u'; [simpl in Hlen; lia|discriminate].
  - simpl in Hg. destruct (p a) eqn:Hp.
    + destruct (greedy p k s c) as [r|] eqn:E.
      * injection Hg as <-. destruct (IH r eq_refl) as (u & t & -> & Hu & Hk & Hmax).
        exists (String a u), t. repeat split.
        -- simpl. rewrite Hp, Hu. reflexivity.
        -- exact Hk.
        -- intros u' t' Hs Hu' Hlen. destruct u' as [|b u']; [simpl in Hlen; lia|].
           rewrite str_app_cons in Hs. injection Hs as <- Hs. simpl in Hu'.
           apply andb_prop in Hu' as [_ Hu']. simpl in Hlen.
           eapply Hmax; eauto. lia.
      * exists "", (String a s). repeat split; [exact Hg|].
        intros u' t' Hs Hu' Hlen. destruct u' as [|b u']; [simpl in Hlen; lia|].
        rewrite str_app_cons in Hs. injection Hs as <- Hs. simpl in Hu'.
        apply andb_prop in Hu' as [_ Hu'].
        eapply greedy_None; eauto.
    + exists "", (String a s). repeat split; [exact Hg|].
      intros u' t' Hs Hu' Hlen. destruct u' as [|b u']; [simpl in Hlen; lia|].
      rewrite str_app_cons in Hs. injection Hs as <- Hs. simpl in Hu'.
      rewrite Hp in Hu'. discriminate.
Qed.

(** *** Inversion of declarative matches *)

Lemma Matches_Seq_inv r1 r2 s c s2 c2 :
  Matches n0 (Seq r1 r2) s c s2 c2 ->
  exists s1 c1, Matches n0 r1 s c s1 c1 /\ Matches n0 r2 s1 c1 s2 c2.
Proof. inversion 1; subst; eauto. Qed.

Lemma Matches_Alt_inv r1 r2 s c s' c' :
  Matches n0 (Alt r1 r2) s c s' c' ->
  Matches n0 r1 s c s' c' \/ Matches n0 r2 s c s' c'.
Proof. inversion 1; subst; eauto. Qed.

Lemma Matches_Group_inv i r s c s' c'' :
  Matches n0 (Group i r) s c s' c'' ->
  exists c', Matches n0 r s c s' c' /\ c'' = <[i := Str.consumed s s']> c'.
Proof. inversion 1; subst; eauto. Qed.

Lemma Matches_Eps_inv s c s' c' :
  Matches n0 Eps s c s' c' -> s' = s /\ c' = c.
Proof. inversion 1; subst; eauto. Qed.

Lemma Matches_Eol_inv s c s' c' :
  Matches n0 Eol s c s' c' -> s = "" /\ s' = "" /\ c' = c.
Proof. inversion 1; subst; eauto. Qed.

Lemma Matches_Chr_inv p s c s' c' :
  Matches n0 (Chr p) s c s' c' ->
  exists a, s = String a s' /\ p a = true /\ c' = c.
Proof. inversion 1; subst; eauto. Qed.

Lemma Matches_Lit_inv w : forall s c s' c',
  Matches n0 (Lit w) s c s' c' -> s = w +:+ s' /\ c' = c.
Proof.
  induction w as [|a w IH]; intros s c s' c' Hm; simpl in Hm.
  - apply Matches_Eps_inv in Hm as [-> ->]. auto.
  - apply Matches_Seq_inv in Hm as (s1 & c1 & H1 & H2).
    apply Matches_Chr_inv in H1 as (b & -> & Hb & ->).
    apply Ascii.eqb_eq in Hb as <-.
    apply IH in H2 as [-> ->]. auto.
Qed.

Lemma Matches_Star_Chr_inv p s c s' c' :
  Matches n0 (Star (Chr p)) s c s' c' ->
  exists u, s = u +:+ s' /\ Str.all p u = true /\ c' = c.
Proof.
  remember (Star (Chr p)) as r eqn:Hr. intros Hm.
  induction Hm; try discriminate.
  - exists "". auto.
  - injection Hr as ->.
    apply Matches_Chr_inv in Hm1 as (a & -> & Ha & ->).
    destruct (IHHm2 eq_refl) as (u & -> & Hu & ->).
    exists (String a u). repeat split. simpl. rewrite Ha, Hu. reflexivity.
Qed.

Lemma Matches_Plus_Chr_inv p s c s' c' :
  Matches n0 (Plus (Chr p)) s c s' c' ->
  exists u, s = u +:+ s' /\ Str.all p u = true /\ u <> "" /\ c' = c.
Proof.
  intros Hm. apply Matches_Seq_inv in Hm as (s1 & c1 & H1 & H2).
  apply Matches_Chr_inv in H1 as (a & -> & Ha & ->).
  apply Matches_Star_Chr_inv in H2 as (u & -> & Hu & ->).
  exists (String a u). repeat split; [|discriminate].
  simpl. rewrite Ha, Hu. reflexivity.
Qed.

(** *** Building declarative matches *)

Lemma Matches_Lit_intro w s c : Matches n0 (Lit w) (w +:+ s) c s c.
Proof.
  induction w as [|a w IH]; simpl; [constructor|].
  rewrite str_app_cons. econstructor; [|exact IH].
  constructor. apply Ascii.eqb_refl.
Qed.

Lemma Matches_Star_Chr_intro p u s c :
  Str.all p u = true -> Matches n0 (Star (Chr p)) (u +:+ s) c s c.
Proof.
  induction u as [|a u IH]; intros Hu; [constructor|].
  simpl in Hu. apply andb_prop in Hu as [Ha Hu]. rewrite str_app_cons.
  eapply M_StarS; [constructor; exact Ha| simpl; lia |apply IH, Hu].
Qed.

Lemma Matches_Plus_Chr_intro p u s c :
  Str.all p u = true -> u <> "" -> Matches n0 (Plus (Chr p)) (u +:+ s) c s c.
Proof.
  destruct u as [|a u]; [congruence|]. intros Hu _.
  simpl in Hu. apply andb_prop in Hu as [Ha Hu]. rewrite str_app_cons.
  econstructor; [constructor; exact Ha|].
  apply Matches_Star_Chr_intro, Hu.
Qed.

Lemma CanMatch_Seq r1 r2 s s1 s2 :
  CanMatch n0 r1 s s1 -> CanMatch n0 r2 s1 s2 -> CanMatch n0 (Seq r1 r2) s s2.
Proof.
  intros H1 H2 c. destruct (H1 c) as [c1 Hm1]. destruct (H2 c1) as [c2 Hm2].
  exists c2. econstructor; eauto.
Qed.

Lemma CanMatch_AltL r1 r2 s s' : CanMatch n0 r1 s s' -> CanMatch n0 (Alt r1 r2) s s'.
Proof. intros H1 c. destruct (H1 c) as [c1 Hm]. exists c1. apply M_AltL, Hm. Qed.

Lemma CanMatch_AltR r1 r2 s s' : CanMatch n0 r2 s s' -> CanMatch n0 (Alt r1 r2) s s'.
Proof. intros H1 c. destruct (H1 c) as [c1 Hm]. exists c1. apply M_AltR, Hm. Qed.

Lemma CanMatch_Group i r s s' : CanMatch n0 r s s' -> CanMatch n0 (Group i r) s s'.
Proof. intros H1 c. destruct (H1 c) as [c1 Hm]. eexists. constructor. exact Hm. Qed.

Lemma CanMatch_Eps s : CanMatch n0 Eps s s.
Proof. intros c. exists c. constructor. Qed.

Lemma CanMatch_Eol : CanMatch n0 Eol "" "".
Proof. intros c. exists c. constructor. Qed.

Lemma CanMatch_Lit w s : CanMatch n0 (Lit w) (w +:+ s) s.
Proof. intros c. exists c. apply Matches_Lit_intro. Qed.

Lemma CanMatch_Star_Chr p u s :
  Str.all p u = true -> CanMatch n0 (Star (Chr p)) (u +:+ s) s.
Proof. intros Hu c. exists c. apply Matches_Star_Chr_intro, Hu. Qed.

Lemma CanMatch_Plus_Chr p u s :
  Str.all p u = true -> u <> "" -> CanMatch n0 (Plus (Chr p)) (u +:+ s) s.
Proof. intros Hu Hne c. exists c. apply Matches_Plus_Chr_intro; assumption. Qed.

End RegexFacts.

(** * Facts about the build-log parser *)

Section DiagnosticsFacts.
Import Regex RegexSpec Diagnostics DiagnosticsSpec.
Local Open Scope list_scope.

Lemma m_regex_split :
  m_regex = Seq Bol (Seq (Group 1 (Star Dot)) m_regex_tail).
Proof. reflexivity. Qed.

(** Only the start of the line can match: the pattern begins with [^]. *)
Lemma search_from_shorter n0 : forall s,
  (String.length s < n0)%nat -> search_from m_regex n0 s = None.
Proof.
  induction s as [|a s IH]; intros Hlen; cbn [search_from].
  - rewrite m_regex_split. cbn [exec].
    destruct (Nat.eqb_spec (String.length "") n0); [lia|reflexivity].
  - rewrite m_regex_split at 1. cbn [exec].
    destruct (Nat.eqb_spec (String.length (String a s)) n0); [lia|].
    apply IH. simpl in Hlen. lia.
Qed.

(** A search of [line] is the greedy first group followed by the rest. *)
Lemma search_m_regex line :
  regex_search line m_regex
  = greedy (fun a => negb (Str.is_line_terminator a)) (after_source line) line ∅.
Proof.
  unfold regex_search.
  assert (E : exec (Group 0 m_regex) (String.length line) accept line ∅
              = greedy (fun a => negb (Str.is_line_terminator a))
                       (after_source line) line ∅).
  { rewrite m_regex_split. unfold Dot. cbn [exec]. rewrite Nat.eqb_refl.
    exact (star_chr_greedy (String.length line) _ (after_source line) _ line ∅
             (Nat.lt_succ_diag_r _)). }
  destruct line as [|a line]; cbn [search_from]; rewrite E.
  - destruct (greedy _ _ _ _); reflexivity.
  - destruct (greedy _ _ _ _); [reflexivity|].
    apply search_from_shorter. simpl. lia.
Qed.

Lemma is_numeral_intro u : Str.all Str.is_digit u = true -> u <> "" -> is_numeral u = true.
Proof.
  intros Hu Hne. unfold is_numeral. rewrite Hu.
  destruct (String.eqb_spec u ""); [contradiction|reflexivity].
Qed.

Lemma is_numeral_elim u : is_numeral u = true -> Str.all Str.is_digit u = true /\ u <> "".
Proof.
  unfold is_numeral. intros H. apply andb_prop in H as [Hu Hne]. split; [exact Hu|].
  destruct (String.eqb_spec u ""); [discriminate|assumption].
Qed.

(** What a match of the pattern after the source token looks like. *)
Lemma m_regex_tail_Matches n0 s c s' c' :
  Matches n0 m_regex_tail s c s' c' ->
  exists L C sev M,
    s = location L C sev M /\ s' = ""
    /\ is_numeral L = true /\ is_numeral C = true
    /\ In sev phrases /\ one_line M = true
    /\ c' !! 2%nat = Some L /\ c' !! 3%nat = Some C
    /\ c' !! 4%nat = Some sev /\ c' !! 6%nat = Some M
    /\ c' !! 1%nat = c !! 1%nat.
Proof.
  unfold m_regex_tail. intros Hm.
  apply Matches_Seq_inv in Hm as (s1 & c1 & H1 & Hm).
  apply Matches_Lit_inv in H1 as [-> ->].
  apply Matches_Seq_inv in Hm as (s2 & c2 & H2 & Hm).
  apply Matches_Group_inv in H2 as (c2' & H2 & ->).
  apply Matches_Plus_Chr_inv in H2 as (L & -> & HL & HLne & ->).
  rewrite str_consumed_app in Hm.
  apply Matches_Seq_inv in Hm as (s3 & c3 & H3 & Hm).
  apply Matches_Lit_inv in H3 as [-> ->].
  apply Matches_Seq_inv in Hm as (s4 & c4 & H4 & Hm).
  apply Matches_Group_inv in H4 as (c4' & H4 & ->).
  apply Matches_Plus_Chr_inv in H4 as (C & -> & HC & HCne & ->).
  rewrite str_consumed_app in Hm.
  apply Matches_Seq_inv in Hm as (s5 & c5 & H5 & Hm).
  apply Matches_Lit_inv in H5 as [-> ->].
  apply Matches_Seq_inv in Hm as (s6 & c6 & H6 & Hm).
  apply Matches_Group_inv in H6 as (c6' & H6 & ->).
  apply Matches_Seq_inv in Hm as (s7 & c7 & H7 & Hm).
  apply Matches_Lit_inv in H7 as [-> ->].
  apply Matches_Seq_inv in Hm as (s8 & c8 & H8 & Hm).
  apply Matches_Group_inv in H8 as (c8' & H8 & ->).
  apply Matches_Star_Chr_inv in H8 as (M & -> & HM & ->).
  apply Matches_Eol_inv in Hm as (-> & -> & ->).
  assert (Hsev : exists sev, s5 = sev +:+ ": " +:+ M +:+ "" /\ In sev phrases
                   /\ c6' !! 2%nat = Some L /\ c6' !! 3%nat = Some C
                   /\ c6' !! 1%nat = c !! 1%nat).
  { apply Matches_Alt_inv in H6 as [H6|H6].
    - apply Matches_Seq_inv in H6 as (t1 & d1 & Hf & He).
      apply Matches_Lit_inv in He as [-> ->].
      apply Matches_Alt_inv in Hf as [Hf|Hf].
      + apply Matches_Group_inv in Hf as (d' & Hf & ->).
        apply Matches_Lit_inv in Hf as [-> ->].
        exists "fatal error". split; [reflexivity|].
        split; [simpl; auto|]. simplify_map_eq. auto.
      + apply Matches_Eps_inv in Hf as [<- ->].
        exists "error". split; [reflexivity|].
        split; [simpl; auto|]. simplify_map_eq. auto.
    - apply Matches_Alt_inv in H6 as [H6|H6];
        apply Matches_Lit_inv in H6 as [-> ->].
      + exists "warning". split; [reflexivity|].
        split; [simpl; auto|]. simplify_map_eq. auto.
      + exists "Scholar". split; [reflexivity|].
        split; [simpl; auto|]. simplify_map_eq. auto. }
  destruct Hsev as (sev & -> & Hin & E2 & E3 & E1).
  exists L, C, sev, M. rewrite !str_consumed_app. rewrite !str_app_nil_r.
  repeat split; auto using is_numeral_intro; simplify_map_eq; auto.
Qed.

(** Conversely, a text of that form has a match. *)
Lemma m_regex_tail_intro n0 L C sev M :
  is_numeral L = true -> is_numeral C = true ->
  In sev phrases -> one_line M = true ->
  CanMatch n0 m_regex_tail (location L C sev M) "".
Proof.
  intros HL HC Hsev HM.
  apply is_numeral_elim in HL as [HL HLne]. apply is_numeral_elim in HC as [HC HCne].
  unfold m_regex_tail, location.
  apply CanMatch_Seq with (s1 := L +:+ ":" +:+ C +:+ ": " +:+ sev +:+ ": " +:+ M);
    [apply CanMatch_Lit|].
  eapply CanMatch_Seq;
    [apply CanMatch_Group, CanMatch_Plus_Chr; assumption|].
  eapply CanMatch_Seq; [apply CanMatch_Lit|].
  eapply CanMatch_Seq;
    [apply CanMatch_Group, CanMatch_Plus_Chr; assumption|].
  eapply CanMatch_Seq; [apply CanMatch_Lit|].
  apply CanMatch_Seq with (s1 := ": " +:+ M).
  { apply CanMatch_Group. simpl in Hsev.
    destruct Hsev as [<-|[<-|[<-|[<-|[]]]]].
    - apply CanMatch_AltL.
      eapply CanMatch_Seq; [apply CanMatch_AltR, CanMatch_Eps|apply CanMatch_Lit].
    - apply CanMatch_AltL.
      change ("fatal error" +:+ ": " +:+ M) with ("fatal " +:+ "error" +:+ ": " +:+ M).
      eapply CanMatch_Seq;
        [apply CanMatch_AltL, CanMatch_Group, CanMatch_Lit|apply CanMatch_Lit].
    - apply CanMatch_AltR, CanMatch_AltL, CanMatch_Lit.
    - apply CanMatch_AltR, CanMatch_AltR, CanMatch_Lit. }
  eapply CanMatch_Seq; [apply CanMatch_Lit|].
  rewrite <- (str_app_nil_r M).
  eapply CanMatch_Seq; [apply CanMatch_Group, CanMatch_Star_Chr; exact HM|].
  apply CanMatch_Eol.
Qed.

Lemma after_source_complete line src L C sev M c :
  LogLine line src L C sev M -> is_Some (after_source line (location L C sev M) c).
Proof.
  intros (-> & Hsrc & HL & HC & Hsev & HM). unfold after_source.
  destruct (m_regex_tail_intro (String.length (log_line src L C sev M)) L C sev M
              HL HC Hsev HM
              (<[1%nat := Str.consumed (log_line src L C sev M) (location L C sev M)]> c))
    as [c' Hm].
  eapply exec_complete; [exact Hm|].
  intros c''. unfold whole_match, accept. eauto.
Qed.

(** *** Colons *)

Lemma colons_app s t : colons (s +:+ t) = (colons s + colons t)%nat.
Proof.
  induction s as [|a s IH]; [reflexivity|]. rewrite str_app_cons. cbn [colons].
  rewrite IH. lia.
Qed.

Lemma no_colon_colons s : no_colon s = true -> colons s = 0%nat.
Proof.
  unfold no_colon. induction s as [|a s IH]; cbn [Str.all colons]; [auto|].
  intros H. apply andb_prop in H as [Ha Hs]. rewrite (IH Hs).
  destruct (Ascii.eqb ":" a); [discriminate|reflexivity].
Qed.

Lemma digit_no_colon a : Str.is_digit a = true -> negb (Ascii.eqb ":" a) = true.
Proof.
  intros Ha. destruct (Ascii.eqb_spec ":" a) as [<-|]; [|reflexivity].
  vm_compute in Ha. discriminate.
Qed.

Lemma numeral_no_colon s : is_numeral s = true -> no_colon s = true.
Proof.
  intros H. apply is_numeral_elim in H as [H _].
  revert H. apply str_all_impl. exact digit_no_colon.
Qed.

Lemma phrase_no_colon sev : In sev phrases -> no_colon sev = true.
Proof.
  simpl. intros [<-|[<-|[<-|[<-|[]]]]]; reflexivity.
Qed.

(** A text is cut at its first colon in one way only. *)
Lemma split_at_colon u : forall u' x x',
  no_colon u = true -> no_colon u' = true ->
  u +:+ String ":" x = u' +:+ String ":" x' -> u = u' /\ x = x'.
Proof.
  induction u as [|a u IH]; intros u' x x' Hu Hu' E.
  - destruct u' as [|b u'].
    + rewrite !str_app_nil_l in E. injection E as ->. auto.
    + rewrite str_app_nil_l, str_app_cons in E. injection E as <- _.
      simpl in Hu'. discriminate.
  - destruct u' as [|b u'].
    + rewrite str_app_nil_l, str_app_cons in E. injection E as -> _.
      simpl in Hu. discriminate.
    + rewrite !str_app_cons in E. injection E as <- E.
      simpl in Hu, Hu'. apply andb_prop in Hu as [_ Hu]. apply andb_prop in Hu' as [_ Hu'].
      destruct (IH u' x x' Hu Hu' E) as [-> ->]. auto.
Qed.

(** The text after the source token is read in one way only. *)
Lemma location_inj L C sev M L' C' sev' M' :
  is_numeral L = true -> is_numeral C = true -> In sev phrases ->
  is_numeral L' = true -> is_numeral C' = true -> In sev' phrases ->
  location L C sev M = location L' C' sev' M' ->
  L = L' /\ C = C' /\ sev = sev' /\ M = M'.
Proof.
  intros HL HC Hs HL' HC' Hs' E. unfold location in E.
  change (":" +:+ L +:+ ":" +:+ C +:+ ": " +:+ sev +:+ ": " +:+ M)
    with (String ":" (L +:+ String ":" (C +:+ String ":" (String " "
            (sev +:+ String ":" (String " " M)))))) in E.
  change (":" +:+ L' +:+ ":" +:+ C' +:+ ": " +:+ sev' +:+ ": " +:+ M')
    with (String ":" (L' +:+ String ":" (C' +:+ String ":" (String " "
            (sev' +:+ String ":" (String " " M')))))) in E.
  injection E as E.
  apply split_at_colon in E as [<- E]; auto using numeral_no_colon.
  apply split_at_colon in E as [<- E]; auto using numeral_no_colon.
  injection E as E.
  apply split_at_colon in E as [<- E]; auto using phrase_no_colon.
  injection E as <-. auto.
Qed.

Lemma colons_location L C sev M :
  is_numeral L = true -> is_numeral C = true -> In sev phrases ->
  colons (location L C sev M) = (4 + colons M)%nat.
Proof.
  intros HL HC Hs. unfold location. rewrite !colons_app.
  rewrite (no_colon_colons L), (no_colon_colons C), (no_colon_colons sev);
    auto using numeral_no_colon, phrase_no_colon.
Qed.

(** *** What a search of a line finds *)

(** A successful search reads the line as [src:L:C: sev: M], with these
    texts as sub-matches 1, 2, 3, 4 and 6, and no reading of the line has
    a longer source token. *)
Lemma regex_search_sound line caps :
  regex_search line m_regex = Some caps ->
  exists src L C sev M,
    LogLine line src L C sev M
    /\ caps !! 1%nat = Some src /\ caps !! 2%nat = Some L
    /\ caps !! 3%nat = Some C /\ caps !! 4%nat = Some sev
    /\ caps !! 6%nat = Some M
    /\ forall src' L' C' sev' M',
         LogLine line src' L' C' sev' M' ->
         (String.length src' <= String.length src)%nat.
Proof.
  rewrite search_m_regex. intros Hg.
  apply greedy_spec in Hg as (src & t & -> & Hsrc & Hk & Hmax).
  unfold after_source in Hk. rewrite str_consumed_app in Hk.
  apply exec_sound in Hk as (s' & c' & Hm & Hk).
  apply m_regex_tail_Matches in Hm
    as (L & C & sev & M & -> & -> & HL & HC & Hsev & HM & E2 & E3 & E4 & E6 & E1).
  unfold whole_match, accept in Hk. injection Hk as <-.
  exists src, L, C, sev, M. repeat split; auto.
  - rewrite lookup_insert_ne by discriminate. rewrite E1. apply lookup_insert_eq.
  - rewrite lookup_insert_ne by discriminate. exact E2.
  - rewrite lookup_insert_ne by discriminate. exact E3.
  - rewrite lookup_insert_ne by discriminate. exact E4.
  - rewrite lookup_insert_ne by discriminate. exact E6.
  - intros src' L' C' sev' M' Hll.
    destruct (Nat.le_gt_cases (String.length src') (String.length src)) as [|Hlt];
      [assumption|exfalso].
    pose proof (after_source_complete _ _ _ _ _ _ ∅ Hll) as [x Hx].
    destruct Hll as (E & Hsrc' & _).
    rewrite (Hmax src' (location L' C' sev' M') E Hsrc' Hlt) in Hx. discriminate.
Qed.

(** A line that reads as [src:L:C: sev: M] is found. *)
Lemma regex_search_complete line src L C sev M :
  LogLine line src L C sev M -> is_Some (regex_search line m_regex).
Proof.
  intros Hll. rewrite search_m_regex.
  destruct (greedy _ _ line ∅) eqn:Hg; [eauto|exfalso].
  pose proof (after_source_complete _ _ _ _ _ _ ∅ Hll) as [x Hx].
  destruct Hll as (E & Hsrc & _).
  rewrite (greedy_None _ _ _ _ Hg src _ E Hsrc) in Hx. discriminate.
Qed.

(** The reading with the longest source token is the one found. *)
Lemma regex_search_exact line src L C sev M :
  LogLine line src L C sev M ->
  (forall src' L' C' sev' M',
     LogLine line src' L' C' sev' M' ->
     (String.length src' <= String.length src)%nat) ->
  exists caps,
    regex_search line m_regex = Some caps
    /\ caps !! 1%nat = Some src /\ caps !! 2%nat = Some L
    /\ caps !! 3%nat = Some C /\ caps !! 4%nat = Some sev
    /\ caps !! 6%nat = Some M.
Proof.
  intros Hll Hmax.
  destruct (regex_search_complete _ _ _ _ _ _ Hll) as [caps Hs].
  exists caps. split; [exact Hs|].
  apply regex_search_sound in Hs
    as (src' & L' & C' & sev' & M' & Hll' & E1 & E2 & E3 & E4 & E6 & Hmax').
  pose proof (Hmax _ _ _ _ _ Hll') as Hle. pose proof (Hmax' _ _ _ _ _ Hll) as Hge.
  destruct Hll as (E & _ & HL & HC & Hsev & _).
  destruct Hll' as (E' & _ & HL' & HC' & Hsev' & _).
  rewrite E in E'. unfold log_line in E'.
  apply str_app_eq_same_length in E' as [<- E']; [|lia].
  apply location_inj in E' as (<- & <- & <- & <-); auto.
Qed.

(** A message without a colon leaves no choice: the source token of the
    reading is the longest. *)
Lemma no_colon_longest line src L C sev M :
  LogLine line src L C sev M -> no_colon M = true ->
  forall src' L' C' sev' M',
    LogLine line src' L' C' sev' M' ->
    (String.length src' <= String.length src)%nat.
Proof.
  intros (E & _ & HL & HC & Hsev & _) HM src' L' C' sev' M'
         (E' & _ & HL' & HC' & Hsev' & _).
  destruct (Nat.le_gt_cases (String.length src') (String.length src)) as [|Hlt];
    [assumption|exfalso].
  rewrite E in E'. unfold log_line in E'.
  apply str_app_eq_cut in E' as (w & -> & Ew); [|lia].
  rewrite str_length_app in Hlt.
  assert (Hc : colons (location L C sev M) = 4%nat).
  { rewrite colons_location, (no_colon_colons M) by assumption. reflexivity. }
  rewrite Ew, colons_app, colons_location in Hc by assumption.
  destruct w as [|a w]; [simpl in Hlt; lia|].
  unfold location in Ew. rewrite str_app_cons in Ew.
  change (":" +:+ L +:+ ":" +:+ C +:+ ": " +:+ sev +:+ ": " +:+ M)
    with (String ":" (L +:+ ":" +:+ C +:+ ": " +:+ sev +:+ ": " +:+ M)) in Ew.
  injection Ew as <- _. cbn [colons] in Hc.
  rewrite Ascii.eqb_refl in Hc. lia.
Qed.

(** *** [BuildDiagnostics] on one line *)

Lemma SplitString_lines_one s : forall cur,
  no_LF s = true -> SplitString_lines cur s = [cur +:+ s].
Proof.
  unfold no_LF. induction s as [|a s IH]; intros cur H; cbn [SplitString_lines Str.all] in *.
  - rewrite str_app_nil_r. reflexivity.
  - apply andb_prop in H as [Ha Hs].
    destruct (Ascii.eqb a Str.LF); [discriminate|].
    rewrite IH by exact Hs. rewrite str_app_assoc. reflexivity.
Qed.

Lemma SplitString_one line : no_LF line = true -> SplitString line = [line].
Proof. intros H. unfold SplitString. rewrite SplitString_lines_one by exact H. reflexivity. Qed.

Lemma one_line_no_LF s : one_line s = true -> no_LF s = true.
Proof.
  apply str_all_impl. intros a. unfold Str.is_line_terminator.
  destruct (Ascii.eqb a Str.LF); simpl; auto.
Qed.

Lemma size_search line :
  size (search line m_regex)
  = match regex_search line m_regex with Some _ => 7%nat | None => 0%nat end.
Proof. unfold size, search. simpl. destruct (regex_search line m_regex); reflexivity. Qed.


(** A line that does not match is passed over. *)
Lemma BuildDiagnostics_loop_skip maxp name line rest count acc :
  regex_search line m_regex = None ->
  BuildDiagnostics_loop maxp name (line :: rest) count acc
  = BuildDiagnostics_loop maxp name rest count acc.
Proof.
  intros Hs. cbn [BuildDiagnostics_loop]. rewrite size_search, Hs. reflexivity.
Qed.






(** The loop emits one diagnostic more than the cap at most. *)
Lemma BuildDiagnostics_loop_length maxp name lines : forall count acc ds,
  BuildDiagnostics_loop maxp name lines count acc = Ok ds ->
  Z.of_nat (List.length ds)
  <= Z.of_nat (List.length acc) + Z.max 0 (maxp + 1 - count).
Proof.
  induction lines as [|errLine rest IH]; intros count acc ds; cbn [BuildDiagnostics_loop].
  - intros [= <-]. lia.
  - destruct (negb _).
    + apply IH.
    + destruct (Z.gtb_spec count maxp).
      * intros [= <-]. lia.
      * destruct (ParseOutput _) as [[[[[source line] col] sev] msg]|e];
          [|discriminate].
        cbn. intros Hr. apply IH in Hr. rewrite List.length_app in Hr. simpl in Hr. lia.
Qed.

Lemma BuildDiagnostics_length maxp buildLog name ds :
  0 <= maxp ->
  BuildDiagnostics maxp buildLog name = Ok ds ->
  Z.of_nat (List.length ds) <= maxp + 1.
Proof.
  intros Hmax Hr. apply BuildDiagnostics_loop_length in Hr. simpl in Hr. lia.
Qed.

End DiagnosticsFacts.

(** * Facts about the device selection *)

Section SelectionFacts.
Import Diagnostics.
Local Open Scope list_scope.
Context `{m_clInfo : ICLInfo}.

(** Within one platform the requested device wins: the first device
    whose identifier matches is selected, whatever came before it. *)
Lemma select_among_match identifier before device after :
  forall maxPowerIndex selected,
  (forall d, In d before -> exists p, inspect identifier d = Ok (Some p)) ->
  inspect identifier device = Ok None ->
  select_among identifier (before ++ device :: after) maxPowerIndex selected
  = Ok (Some device).
Proof.
  induction before as [|d before IH]; intros m sel Hbefore Hmatch; simpl.
  - rewrite Hmatch. reflexivity.
  - destruct (Hbefore d) as [p Hp]; [simpl; auto|]. rewrite Hp.
    assert (Hrest : forall d', In d' before ->
              exists p', inspect identifier d' = Ok (Some p'))
      by (intros d' Hd'; apply Hbefore; simpl; auto).
    destruct (p >? m); apply IH; assumption.
Qed.

(** Within one platform, without a match, a device of the greatest power
    index is selected when that index exceeds the running maximum (which
    starts at 0); otherwise the selection is left as it was. *)
Lemma select_among_greatest identifier devices :
  forall maxPowerIndex selected,
  (forall d, In d devices -> exists p, inspect identifier d = Ok (Some p)) ->
  exists r,
    select_among identifier devices maxPowerIndex selected = Ok r
    /\ ((r = selected
         /\ forall d p, In d devices -> inspect identifier d = Ok (Some p) ->
                        p <= maxPowerIndex)
        \/ (exists d p,
              r = Some d /\ In d devices
              /\ inspect identifier d = Ok (Some p) /\ maxPowerIndex < p
              /\ forall d' p', In d' devices ->
                               inspect identifier d' = Ok (Some p') -> p' <= p)).
Proof.
  induction devices as [|d devices IH]; intros m sel Hall; simpl.
  - exists sel. split; [reflexivity|]. left. split; [reflexivity|].
    intros d p [].
  - destruct (Hall d) as [p Hp]; [simpl; auto|]. rewrite Hp.
    assert (Hrest : forall d', In d' devices ->
              exists p', inspect identifier d' = Ok (Some p'))
      by (intros d' Hd'; apply Hall; simpl; auto).
    destruct (Z.gtb_spec p m) as [Hgt|Hle].
    + destruct (IH p (Some d) Hrest) as (r & -> & [[-> Hmax]|(d1 & p1 & -> & Hin & Hp1 & Hlt & Hmax)]).
      * exists (Some d). split; [reflexivity|]. right.
        exists d, p. split; [reflexivity|]. split; [simpl; auto|].
        split; [exact Hp|]. split; [lia|].
        intros d' p' [<-|Hin] Hp'; [|eauto].
        rewrite Hp in Hp'. injection Hp' as <-. lia.
      * exists (Some d1). split; [reflexivity|]. right.
        exists d1, p1. split; [reflexivity|]. split; [simpl; auto|].
        split; [exact Hp1|]. split; [lia|].
        intros d' p' [<-|Hin'] Hp'; [|eauto].
        rewrite Hp in Hp'. injection Hp' as <-. lia.
    + destruct (IH m sel Hrest) as (r & -> & [[-> Hmax]|(d1 & p1 & -> & Hin & Hp1 & Hlt & Hmax)]).
      * exists sel. split; [reflexivity|]. left. split; [reflexivity|].
        intros d' p' [<-|Hin] Hp'; [|eauto].
        rewrite Hp in Hp'. injection Hp' as <-. lia.
      * exists (Some d1). split; [reflexivity|]. right.
        exists d1, p1. split; [reflexivity|]. split; [simpl; auto|].
        split; [exact Hp1|]. split; [lia|].
        intros d' p' [<-|Hin'] Hp'; [|eauto].
        rewrite Hp in Hp'. injection Hp' as <-. lia.
Qed.

End SelectionFacts.

(** * The engine on concrete build logs and devices *)

Section DiagnosticsRuns.
Import Regex Diagnostics DiagnosticsSpec DiagnosticsScenario.
Local Open Scope list_scope.

(** C1.  The greatest power index is kept per platform and a match only
    leaves the loop over its own platform: with the stronger device on
    the first of two platforms, the weaker device of the second platform
    is selected, without a match (identifier 0) and also when the
    stronger device is the one requested (identifier 1). *)
Theorem C1_later_platform_wins :
  GetDevicePowerIndex big_gpu = Ok 64000
  /\ GetDevicePowerIndex small_cpu = Ok 4000
  /\ GetDeviceID big_gpu = Ok 1
  /\ (m_device <$> SetOpenCLDevice two_platforms 0 initial) = Ok (Some small_cpu)
  /\ (m_device <$> SetOpenCLDevice two_platforms 1 initial) = Ok (Some small_cpu).
Proof. vm_compute. repeat split. Qed.

(** The scenario of the specification: two devices on one platform, no
    match; the stronger one is selected. *)
Example one_platform_auto_select :
  (m_device <$> SetOpenCLDevice one_platform 0 initial) = Ok (Some big_gpu).
Proof. vm_compute. reflexivity. Qed.

(** C4.  With the cap set to 1, a log of three errors gives two
    diagnostics. *)
Theorem C4_cap_exceeded_by_one :
  Get (constant_driver three_errors_log) (SetMaxProblemsCount 1 engine)
      "kernel void f() {}" ""
  = Ok [point_diagnostic "k.cl" 0 1 1 "a"; point_diagnostic "k.cl" 1 1 1 "b"].
Proof. vm_compute. reflexivity. Qed.


(** The missed case of [ParseSeverity]: the phrase "fatal error", which
    [m_regex] accepts, gets severity -1. *)
Example fatal_error_severity :
  BuildDiagnostics 100 fatal_line ""
  = Ok [point_diagnostic "kernel.cl" 0 10 (-1) "'missing.h' file not found"].
Proof. vm_compute. reflexivity. Qed.




End DiagnosticsRuns.
(** * Properties of the endpoint *)

(** Reduce the monadic plumbing and keep the endpoint's methods folded. *)
Ltac run_step :=
  cbn -[JsonRPC.OnInitialize JsonRPC.OnTracingChanged JsonRPC.FireMethodCallback
        JsonRPC.FireRespondCallback JsonRPC.WriteError].

Section EndpointFacts.
Import Json JsonRPC JsonRPCSpec.
Local Open Scope list_scope.
Context `{Parser} `{HeaderRegex}.

Lemma WriteError_spec errorCode message s :
  WriteError errorCode message s
  = (Ok tt, emit (Output (error_response errorCode message)) s).
Proof. reflexivity. Qed.

(** [Write] only adds to the output. *)
Lemma Write_control data s :
  exists s', Write data s = (Ok tt, s') /\ control s' = control s
             /\ m_callbacks s' = m_callbacks s /\ m_method s' = m_method s
             /\ m_body s' = m_body s.
Proof.
  unfold Write. destruct (emplace data "jsonrpc" (Str "2.0")); eexists; eauto.
Qed.

Lemma for_each_Write_control l s :
  exists s', for_each Write l s = (Ok tt, s') /\ control s' = control s.
Proof.
  revert s. induction l as [|x l IH]; intros s; simpl.
  - eexists; eauto.
  - unfold mbind, M_bind.
    destruct (Write_control x s) as (s1 & -> & Hc & _).
    destruct (IH s1) as (s2 & -> & Hc2). eexists; split; eauto. congruence.
Qed.

Lemma invoke_control called callback body s r s' :
  invoke called callback body s = (r, s') -> control s' = control s.
Proof.
  unfold invoke, mbind, M_bind, modify. simpl.
  destruct (for_each_Write_control (written (callback body)) (emit called s))
    as (s1 & -> & Hc).
  destruct (raised (callback body)); unfold throw, mret, M_ret;
    intros [= <- <-]; exact Hc.
Qed.

Lemma body_at2_control k1 k2 s r s' :
  body_at2 k1 k2 s = (r, s') -> control s' = control s.
Proof.
  unfold body_at2, mbind, M_bind, get, lift, modify.
  destruct (at_mut2 (m_body s) k1 k2) as [[b v]|e]; simpl;
    intros [= <- <-]; reflexivity.
Qed.

Lemma FireMethodCallback_control s r s' :
  FireMethodCallback s = (r, s') -> control s' = control s.
Proof.
  unfold FireMethodCallback, mbind, M_bind, get. simpl.
  destruct (m_callbacks s !! m_method s) as [callback|].
  - unfold try_catch.
    destruct (invoke _ callback (m_body s) s) as [[a|e] s1] eqn:E;
      apply invoke_control in E; unfold mret, M_ret;
      intros [= <- <-]; exact E.
  - destruct (body_at2 "params" "id" s) as [[id|e] s1] eqn:E;
      apply body_at2_control in E.
    + destruct (_ || _); [rewrite WriteError_spec | unfold mret, M_ret];
        intros [= <- <-]; exact E.
    + intros [= <- <-]; exact E.
Qed.

Lemma FireRespondCallback_control s r s' :
  FireRespondCallback s = (r, s') -> control s' = control s.
Proof.
  unfold FireRespondCallback, mbind, M_bind, get. simpl.
  destruct (m_respondCallback s) as [callback|].
  - apply invoke_control.
  - unfold mret, M_ret. intros [= <- <-]; reflexivity.
Qed.

(** A buffer that holds a whole body goes to [process_body]. *)
Lemma Consume_body c s :
  m_validHeader s = true ->
  Z.of_nat (String.length (m_buffer s +:+ String c "")) = m_contentLength s ->
  Consume c s = process_body (set_buffer (m_buffer s +:+ String c "") s).
Proof.
  intros Hv Hlen. unfold Consume, mbind, M_bind, modify, get. simpl.
  rewrite Hv. simpl. rewrite Hlen. rewrite Z.eqb_refl. reflexivity.
Qed.

(** A shorter buffer only grows. *)
Lemma Consume_accumulate c s :
  m_validHeader s = true ->
  Z.of_nat (String.length (m_buffer s +:+ String c "")) <> m_contentLength s ->
  Consume c s = (Ok tt, set_buffer (m_buffer s +:+ String c "") s).
Proof.
  intros Hv Hlen. unfold Consume, mbind, M_bind, modify, get. simpl.
  rewrite Hv. simpl. apply Z.eqb_neq in Hlen. rewrite Hlen. reflexivity.
Qed.

(** C9.  While the endpoint is not initialised, a message whose method
    is a string other than "initialize" produces exactly one
    NotInitialized (-32002) error response and no callback runs: the
    only new event is that output. *)
Theorem C9_lifecycle_gate c s members name :
  m_validHeader s = true ->
  Z.of_nat (String.length (m_buffer s +:+ String c "")) = m_contentLength s ->
  m_initialized s = false ->
  parse (m_buffer s +:+ String c "") = Ok (Object members) ->
  Json.lookup "method" members = Some (Str name) ->
  name <> "initialize" ->
  exists s',
    Consume c s = (Ok tt, s')
    /\ events s' = events s ++
         [Output (error_response NotInitialized "Server was not initialized.")]
    /\ m_initialized s' = false.
Proof.
  intros Hv Hlen Hinit Hparse Hm Hname.
  rewrite Consume_body by assumption.
  unfold process_body, try_catch, dispatch, mbind, M_bind, get, modify, lift.
  simpl. rewrite Hparse. simpl. rewrite Hm. simpl.
  destruct (String.eqb_spec name "initialize") as [->|_]; [congruence|].
  simpl. rewrite Hinit. simpl.
  eexists; split; [reflexivity|]. simpl. auto.
Qed.

Lemma unit_bind_ret (m : M unit) s : (_ ← m; mret tt) s = m s.
Proof.
  unfold mbind, M_bind, mret, M_ret. destruct (m s) as [[[]|e] s1]; reflexivity.
Qed.

(** Once the header is valid, the bytes up to the declared length are
    gathered and handed to [process_body] as one body. *)
Lemma Send_body next : forall s,
  m_validHeader s = true ->
  next <> "" ->
  Z.of_nat (String.length (m_buffer s +:+ next)) = m_contentLength s ->
  Send next s = process_body (set_buffer (m_buffer s +:+ next) s).
Proof.
  induction next as [|a rest IH]; intros s Hv Hne Hlen; [congruence|].
  destruct rest as [|b rest'].
  - change (Send (String a "") s) with ((_ ← Consume a; mret tt) s).
    rewrite unit_bind_ret. apply Consume_body; assumption.
  - change (Send (String a (String b rest')) s)
      with ((_ ← Consume a; Send (String b rest')) s).
    unfold mbind at 1, M_bind at 1.
    rewrite Consume_accumulate; [|assumption|].
    + rewrite IH; simpl.
      * rewrite str_app_assoc. reflexivity.
      * assumption.
      * discriminate.
      * rewrite str_app_assoc. exact Hlen.
    + rewrite <- Hlen. rewrite !str_length_app. simpl. lia.
Qed.

(** C10.  When the body does not parse, [Consume] emits ParseError and
    clears the buffer only: the endpoint still reads a body of the same
    length and the busy flag is as it was; the next [m_contentLength]
    bytes are processed as a body, whatever the header pattern is. *)
Theorem C10_parse_failure_keeps_body_phase c s e :
  m_validHeader s = true ->
  Z.of_nat (String.length (m_buffer s +:+ String c "")) = m_contentLength s ->
  parse (m_buffer s +:+ String c "") = Throw e ->
  let s' := emit (Output (error_response ParseError "Failed to parse request"))
                 (set_buffer "" s) in
  Consume c s = (Ok tt, s')
  /\ m_validHeader s' = true
  /\ m_contentLength s' = m_contentLength s
  /\ m_isProcessing s' = m_isProcessing s
  /\ forall next : string,
       Z.of_nat (String.length next) = m_contentLength s ->
       Send next s' = process_body (set_buffer next s').
Proof.
  intros Hv Hlen Hparse s'.
  split.
  { rewrite Consume_body by assumption.
    unfold process_body, try_catch, dispatch, mbind, M_bind, get, modify, lift.
    simpl. rewrite Hparse. reflexivity. }
  repeat split; try assumption.
  intros next Hnext.
  assert (Hne : next <> "").
  { intros ->. simpl in Hnext. rewrite <- Hnext in Hlen.
    rewrite str_length_app in Hlen. simpl in Hlen. lia. }
  rewrite Send_body; simpl; auto.
Qed.




(** What [FireMethodCallback] does without a registered callback: the
    request test reads [params.id]. *)
Lemma FireMethodCallback_unhandled s body' id :
  m_callbacks s !! m_method s = None ->
  at_mut2 (m_body s) "params" "id" = Ok (body', id) ->
  FireMethodCallback s
  = (Ok tt,
     if negb (is_null id) || negb (Str.starts_with "$/" (m_method s))
     then emit (Output (error_response MethodNotFound
                  ("Method '" +:+ m_method s +:+ "' is not supported.")))
               (set_body body' s)
     else set_body body' s).
Proof.
  intros Hcb Hid.
  unfold FireMethodCallback, body_at2, mbind, M_bind, get, lift, modify.
  cbn -[Str.starts_with at_mut2]. rewrite Hcb, Hid. cbn -[Str.starts_with].
  destruct (negb (is_null id) || negb (Str.starts_with "$/" (m_method s)));
    reflexivity.
Qed.

Lemma OnInitialize_busy s r s' :
  OnInitialize s = (r, s') -> m_isProcessing s' = m_isProcessing s.
Proof.
  unfold OnInitialize, try_catch, body_at2, set_trace_flags,
    mbind, M_bind, get, modify, lift, mret, M_ret.
  destruct (at_mut2 (m_body s) "params" "trace") as [[b v]|e]; simpl.
  - destruct (get_string v); simpl; intros [= <- <-]; reflexivity.
  - intros [= <- <-]; reflexivity.
Qed.

Lemma OnTracingChanged_busy data s r s' :
  OnTracingChanged data s = (r, s') -> m_isProcessing s' = m_isProcessing s.
Proof.
  unfold OnTracingChanged, try_catch, set_trace_flags,
    mbind, M_bind, get, modify, lift, mret, M_ret.
  destruct (at_const data "params") as [p|e]; simpl;
    [|intros [= <- <-]; reflexivity].
  destruct (at_const p "value") as [v|e]; simpl;
    [|intros [= <- <-]; reflexivity].
  destruct (get_string v); simpl; intros [= <- <-]; reflexivity.
Qed.

Lemma control_busy s s' : control s' = control s -> m_isProcessing s' = m_isProcessing s.
Proof. unfold control. congruence. Qed.

(** The [try] block clears the busy flag when it runs to its end, and
    leaves it alone on its early return, which is the NotInitialized
    answer. *)
Lemma dispatch_busy s b s' :
  dispatch s = (Ok b, s') ->
  if b then m_isProcessing s' = false
  else m_isProcessing s' = m_isProcessing s /\ m_initialized s = false.
Proof.
  unfold dispatch, mbind, M_bind, get, modify, lift.
  run_step.
  destruct (parse (m_buffer s)) as [body|e]; [|discriminate].
  run_step.
  destruct (at_mut body "method") as [[body' method]|e]; [|discriminate].
  run_step.
  destruct (is_string method).
  - destruct (get_string method) as [name|e]; [|discriminate].
    run_step.
    destruct (String.eqb name "initialize").
    + destruct (OnInitialize _) as [[[]|e] s1]; [|discriminate].
      destruct (FireMethodCallback s1) as [[[]|e] s2]; [|discriminate].
      intros [= <- <-]. reflexivity.
    + run_step. destruct (m_initialized s) eqn:Hi; run_step.
      * destruct (String.eqb name "$/setTrace").
        -- destruct (OnTracingChanged _ _) as [[[]|e] s1]; [|discriminate].
           destruct (FireMethodCallback s1) as [[[]|e] s2]; [|discriminate].
           intros [= <- <-]. reflexivity.
        -- cbn -[FireMethodCallback].
           destruct (FireMethodCallback _) as [[[]|e] s2]; [|discriminate].
           intros [= <- <-]. reflexivity.
      * intros [= <- <-]. simpl. auto.
  - destruct (FireRespondCallback _) as [[[]|e] s1]; [|discriminate].
    intros [= <- <-]. reflexivity.
Qed.

Lemma for_each_invariant {A : Type} (f : A -> M unit) (I : t -> Prop) :
  (forall x s r s', I s -> f x s = (r, s') -> I s') ->
  forall l s r s', I s -> for_each f l s = (r, s') -> I s'.
Proof.
  intros Hf. induction l as [|x l IH]; intros s r s' Hs; simpl.
  - intros [= <- <-]. exact Hs.
  - unfold mbind, M_bind. destruct (f x s) as [[[]|e] s1] eqn:E.
    + apply IH. eapply Hf; eauto.
    + intros [= <- <-]. eapply Hf; eauto.
Qed.

Lemma ReadHeader_lifecycle s r s' :
  ReadHeader s = (r, s') ->
  m_initialized s' = m_initialized s /\ m_method s' = m_method s.
Proof.
  intros E. unfold ReadHeader, mbind, M_bind, get in E.
  match type of E with context [for_each ?f ?l s] =>
    destruct (for_each f l s) as [[[]|e] s1] eqn:Ef end;
    injection E as <- <-;
    revert Ef;
    apply (for_each_invariant _
             (fun s0 => m_initialized s0 = m_initialized s
                        /\ m_method s0 = m_method s)); auto;
    intros [key value] s0 r0 s0' [Hi Hm]; unfold lift, modify;
    (destruct (String.eqb key "Content-Length");
       [destruct (Std.stoi value)|]); intros [= <- <-]; simpl; auto.
Qed.

Lemma OnInitialize_method s r s' :
  OnInitialize s = (r, s') -> m_method s' = m_method s.
Proof.
  unfold OnInitialize, try_catch, body_at2, set_trace_flags,
    mbind, M_bind, get, modify, lift, mret, M_ret.
  destruct (at_mut2 (m_body s) "params" "trace") as [[b v]|e]; simpl.
  - destruct (get_string v); simpl; intros [= <- <-]; reflexivity.
  - intros [= <- <-]; reflexivity.
Qed.

Lemma OnTracingChanged_lifecycle data s r s' :
  OnTracingChanged data s = (r, s') ->
  m_initialized s' = m_initialized s /\ m_method s' = m_method s.
Proof.
  unfold OnTracingChanged, try_catch, set_trace_flags,
    mbind, M_bind, get, modify, lift, mret, M_ret.
  destruct (at_const data "params") as [p|e]; simpl;
    [|intros [= <- <-]; auto].
  destruct (at_const p "value") as [v|e]; simpl;
    [|intros [= <- <-]; auto].
  destruct (get_string v); simpl; intros [= <- <-]; auto.
Qed.

Lemma control_lifecycle s s' :
  control s' = control s ->
  m_initialized s' = m_initialized s /\ m_method s' = m_method s.
Proof. unfold control. intros [= _ -> _ _ _ _ -> _]. auto. Qed.

(** The [try] block raises the lifecycle flag only for a message whose
    method is "initialize". *)
Lemma dispatch_lifecycle s r s' :
  dispatch s = (r, s') ->
  m_initialized s' = m_initialized s \/ m_method s' = "initialize".
Proof.
  unfold dispatch, mbind, M_bind, get, modify, lift.
  run_step.
  destruct (parse (m_buffer s)) as [body|e]; [|intros [= <- <-]; auto].
  run_step.
  destruct (at_mut body "method") as [[body' method]|e]; [|intros [= <- <-]; auto].
  run_step.
  destruct (is_string method).
  - destruct (get_string method) as [name|e]; [|intros [= <- <-]; auto].
    run_step.
    destruct (String.eqb_spec name "initialize") as [->|_].
    + destruct (OnInitialize _) as [[[]|e] s1] eqn:E1;
        apply OnInitialize_method in E1; simpl in E1.
      * destruct (FireMethodCallback s1) as [[[]|e] s2] eqn:E2;
          apply FireMethodCallback_control, control_lifecycle in E2 as [_ E2];
          intros [= <- <-]; right; simpl; congruence.
      * intros [= <- <-]. right. exact E1.
    + run_step. destruct (m_initialized s) eqn:Hi; run_step.
      * destruct (String.eqb name "$/setTrace").
        -- destruct (OnTracingChanged _ _) as [[[]|e] s1] eqn:E1;
             apply OnTracingChanged_lifecycle in E1 as [E1 _]; simpl in E1.
           ++ destruct (FireMethodCallback s1) as [[[]|e] s2] eqn:E2;
                apply FireMethodCallback_control, control_lifecycle in E2 as [E2 _];
                intros [= <- <-]; left; simpl; congruence.
           ++ intros [= <- <-]. left. congruence.
        -- cbn -[FireMethodCallback].
           destruct (FireMethodCallback _) as [[[]|e] s2] eqn:E2;
             apply FireMethodCallback_control, control_lifecycle in E2 as [E2 _];
             simpl in E2; intros [= <- <-]; left; simpl; congruence.
      * intros [= <- <-]. left. simpl. auto.
  - destruct (FireRespondCallback _) as [[[]|e] s1] eqn:E1;
      apply FireRespondCallback_control, control_lifecycle in E1 as [E1 _];
      simpl in E1; intros [= <- <-]; left; simpl; congruence.
Qed.

(** An endpoint that is not initialised stays so until a message whose
    method is "initialize" is dispatched. *)
Lemma initialized_only_by_initialize c s r s' :
  Consume c s = (r, s') ->
  m_initialized s = false ->
  m_initialized s' = true ->
  m_method s' = "initialize".
Proof.
  unfold Consume, mbind, M_bind, modify, get.
  cbn -[process_body ReadHeader WriteError]. intros E Hfalse Htrue.
  destruct (m_validHeader s).
  - destruct (negb _).
    + injection E as <- <-. simpl in Htrue. congruence.
    + unfold process_body, try_catch, mbind, M_bind in E.
      destruct (dispatch _) as [[b|e] s1] eqn:Ed;
        apply dispatch_lifecycle in Ed; simpl in Ed;
        injection E as <- <-; simpl in *; destruct Ed; congruence.
  - destruct (ReadHeader _) as [[found|e] s1] eqn:Er;
      apply ReadHeader_lifecycle in Er as [Hi Hm]; simpl in Hi, Hm.
    + destruct found; cbn -[WriteError] in E.
      * destruct (0 <? m_contentLength s1); cbn in E;
          injection E as <- <-; simpl in Htrue; congruence.
      * destruct (String.eqb (m_buffer s1) LE); cbn -[WriteError] in E;
          [destruct (0 <? m_contentLength s1); cbn in E|];
          injection E as <- <-; simpl in Htrue; congruence.
    + injection E as <- <-. congruence.
Qed.

End EndpointFacts.

(** * The endpoint on the inputs of the test suite *)

Section EndpointRuns.
Import Json JsonRPC JsonRPCSpec Scenario.
Local Open Scope list_scope.

(** C2.  The NotInitialized answer returns before the busy flag is
    cleared: an endpoint on which [Reset] was called and which then gets
    the out-of-order request of the tests, whose body parses, is not
    ready afterwards. *)
Theorem C2_not_initialized_leaves_busy :
  let s' := snd ((_ ← Reset; Send (BuildRequest didOpen_body)) fresh) in
  parse didOpen_body
  = Ok (Object [("id", Number 0); ("jsonrpc", Str "2.0");
                ("method", Str "textDocument/didOpen"); ("params", Null)])
  /\ events s'
     = [Output (error_response NotInitialized "Server was not initialized.")]
  /\ IsReady s' = false.
Proof. vm_compute. repeat split. Qed.


(** C5.  After [initialize], a message with an "id", a method that
    starts with "$/" and no registered callback gets no answer. *)
Theorem C5_request_with_id_dropped :
  let s := initialized_endpoint in
  let s' := snd (Send (BuildRequest progress_request_body) s) in
  parse progress_request_body
  = Ok (Object [("id", Number 7); ("jsonrpc", Str "2.0");
                ("method", Str "$/foo"); ("params", Object [])])
  /\ m_initialized s = true
  /\ m_callbacks s !! "$/foo" = None
  /\ events s' = events s
  /\ IsReady s' = true.
Proof. vm_compute. repeat split. Qed.


(** C9 at the out-of-order request of the tests. *)
Lemma C9_witness :
  exists s',
    Consume "}" (before_last_byte (BuildRequest didOpen_body) fresh) = (Ok tt, s')
    /\ events s' = events (before_last_byte (BuildRequest didOpen_body) fresh) ++
         [Output (error_response NotInitialized "Server was not initialized.")]
    /\ m_initialized s' = false.
Proof.
  apply (C9_lifecycle_gate "}" (before_last_byte (BuildRequest didOpen_body) fresh)
           [("id", Number 0); ("jsonrpc", Str "2.0");
            ("method", Str "textDocument/didOpen"); ("params", Null)]
           "textDocument/didOpen").
  - vm_compute. reflexivity.
  - vm_compute. reflexivity.
  - vm_compute. reflexivity.
  - vm_compute. reflexivity.
  - vm_compute. reflexivity.
  - discriminate.
Defined.


(** C10 at the malformed request of the tests. *)
Lemma C10_witness :
  let s := before_last_byte (BuildRequest malformed_body) fresh in
  let s' := emit (Output (error_response ParseError "Failed to parse request"))
                 (set_buffer "" s) in
  Consume "}" s = (Ok tt, s')
  /\ m_validHeader s' = true
  /\ m_contentLength s' = m_contentLength s
  /\ m_isProcessing s' = m_isProcessing s
  /\ forall next : string,
       Z.of_nat (String.length next) = m_contentLength s ->
       Send next s' = process_body (set_buffer next s').
Proof.
  apply (C10_parse_failure_keeps_body_phase "}"
           (before_last_byte (BuildRequest malformed_body) fresh)
           json_parse_error).
  - vm_compute. reflexivity.
  - vm_compute. reflexivity.
  - vm_compute. reflexivity.
Defined.

End EndpointRuns.

(** * More properties of the endpoint *)

Section EndpointMore.
Import Json JsonRPC JsonRPCSpec ExtraSpec.
Local Open Scope list_scope.
Context `{Parser} `{HeaderRegex}.

Lemma Write_result data s :
  Write data s
  = (Ok tt,
     match emplace data "jsonrpc" (Str "2.0") with
     | Ok body => emit (Output (frame (dump body))) s
     | Throw _ => s
     end).
Proof. unfold Write. destruct (emplace data "jsonrpc" (Str "2.0")); reflexivity. Qed.

Lemma for_each_Write_events l : forall s,
  exists s',
    for_each Write l s = (Ok tt, s')
    /\ events s' = events s ++ outputs_of l
    /\ control s' = control s
    /\ m_body s' = m_body s
    /\ m_callbacks s' = m_callbacks s
    /\ m_respondCallback s' = m_respondCallback s.
Proof.
  induction l as [|data l IH]; intros s; cbn [for_each outputs_of].
  - eexists. split; [reflexivity|]. rewrite app_nil_r. auto.
  - unfold mbind, M_bind. rewrite Write_result.
    destruct (emplace data "jsonrpc" (Str "2.0")) as [body|e].
    + destruct (IH (emit (Output (frame (dump body))) s))
        as (s' & -> & Hev & Hc & Hb & Hcb & Hr).
      eexists. split; [reflexivity|]. rewrite Hev. cbn.
      rewrite <- app_assoc. auto.
    + apply IH.
Qed.

(** A callback's run: the call, then its outputs; its exception, if
    any, is the result. *)
Lemma invoke_events called callback body s :
  exists s',
    invoke called callback body s
    = (match raised (callback body) with Some e => Throw e | None => Ok tt end, s')
    /\ events s' = events s ++ called :: outputs_of (written (callback body))
    /\ control s' = control s
    /\ m_body s' = m_body s
    /\ m_callbacks s' = m_callbacks s
    /\ m_respondCallback s' = m_respondCallback s.
Proof.
  unfold invoke, mbind, M_bind, modify.
  destruct (for_each_Write_events (written (callback body)) (emit called s))
    as (s' & -> & Hev & Hc & Hb & Hcb & Hr).
  exists s'. split.
  - destruct (raised (callback body)); reflexivity.
  - rewrite Hev. cbn. rewrite <- app_assoc. auto.
Qed.

Lemma OnTracingChanged_frame data s :
  exists s',
    OnTracingChanged data s = (Ok tt, s')
    /\ events s' = events s
    /\ m_body s' = m_body s
    /\ m_callbacks s' = m_callbacks s
    /\ m_method s' = m_method s
    /\ m_initialized s' = m_initialized s
    /\ m_isProcessing s' = m_isProcessing s.
Proof.
  unfold OnTracingChanged, try_catch, set_trace_flags,
    mbind, M_bind, get, modify, lift, mret, M_ret.
  destruct (at_const data "params") as [p|e]; cbn;
    [|eexists; split; [reflexivity|auto 10]].
  destruct (at_const p "value") as [v|e]; cbn;
    [|eexists; split; [reflexivity|auto 10]].
  destruct (get_string v); cbn; eexists; (split; [reflexivity|cbn; auto 10]).
Qed.



Lemma FireRespondCallback_result s :
  exists s',
    FireRespondCallback s
    = (match m_respondCallback s with
       | Some callback =>
           match raised (callback (m_body s)) with
           | Some e => Throw e
           | None => Ok tt
           end
       | None => Ok tt
       end, s')
    /\ events s' = events s ++
         match m_respondCallback s with
         | Some callback =>
             RespondCalled (m_body s)
             :: outputs_of (written (callback (m_body s)))
         | None => []
         end
    /\ control s' = control s.
Proof.
  unfold FireRespondCallback, mbind, M_bind, get. cbn -[invoke].
  destruct (m_respondCallback s) as [callback|].
  - destruct (invoke_events (RespondCalled (m_body s)) callback (m_body s) s)
      as (s' & -> & Hev & Hc & _).
    exists s'. auto.
  - exists s. rewrite app_nil_r. auto.
Qed.

(** X2.  A message without a "method" member is a response: it goes to
    the response callback, if one is registered, with a null "method"
    member added by the test that read it.  No method callback runs, no
    error response is written, initialised or not, and the endpoint is
    ready afterwards. *)
Theorem X2_response_goes_to_response_callback c s members :
  m_validHeader s = true ->
  Z.of_nat (String.length (m_buffer s +:+ String c "")) = m_contentLength s ->
  parse (m_buffer s +:+ String c "") = Ok (Object members) ->
  Json.lookup "method" members = None ->
  (forall callback : InputCallbackFunc,
     m_respondCallback s = Some callback ->
     raised (callback (Object (store "method" Null members))) = None) ->
  exists s',
    Consume c s = (Ok tt, s')
    /\ events s' = events s ++
         match m_respondCallback s with
         | Some callback =>
             RespondCalled (Object (store "method" Null members))
             :: outputs_of (written (callback (Object (store "method" Null members))))
         | None => []
         end
    /\ IsReady s' = true.
Proof.
  intros Hv Hlen Hparse Hm Hquiet.
  rewrite Consume_body by assumption.
  unfold process_body, try_catch, dispatch, mbind, M_bind, get, modify, lift.
  run_step. rewrite Hparse. run_step. rewrite Hm. run_step.
  set (s1 := set_body _ _).
  destruct (FireRespondCallback_result s1) as (s2 & -> & Hev & _).
  subst s1. cbn in Hev |- *.
  destruct (m_respondCallback s) as [callback|].
  - rewrite (Hquiet callback eq_refl).
    eexists. split; [reflexivity|]. cbn. rewrite Hev. auto.
  - eexists. split; [reflexivity|]. cbn. rewrite Hev. auto.
Qed.

(** X3.  An exception of the response callback is not swallowed: it
    reaches the handler of [Consume], which clears the buffer and writes
    the ParseError response; the busy flag is left as it was. *)
Theorem X3_response_callback_exception_is_a_parse_error c s members
    (callback : InputCallbackFunc) e :
  m_validHeader s = true ->
  Z.of_nat (String.length (m_buffer s +:+ String c "")) = m_contentLength s ->
  parse (m_buffer s +:+ String c "") = Ok (Object members) ->
  Json.lookup "method" members = None ->
  m_respondCallback s = Some callback ->
  raised (callback (Object (store "method" Null members))) = Some e ->
  exists s',
    Consume c s = (Ok tt, s')
    /\ events s' = events s ++
         RespondCalled (Object (store "method" Null members))
         :: outputs_of (written (callback (Object (store "method" Null members))))
         ++ [Output (error_response ParseError "Failed to parse request")]
    /\ m_buffer s' = ""
    /\ m_isProcessing s' = m_isProcessing s.
Proof.
  intros Hv Hlen Hparse Hm Hcb He.
  rewrite Consume_body by assumption.
  unfold process_body, try_catch, dispatch, mbind, M_bind, get, modify, lift.
  run_step. rewrite Hparse. run_step. rewrite Hm. run_step.
  set (s1 := set_body _ _).
  destruct (FireRespondCallback_result s1) as (s2 & -> & Hev & Hc).
  subst s1. cbn in Hev |- *.
  rewrite Hcb in *. rewrite He.
  eexists. split; [reflexivity|]. cbn. rewrite Hev.
  apply control_busy in Hc. rewrite Hc. cbn.
  rewrite <- app_assoc. auto.
Qed.

(** X4.  A body that is valid JSON but neither an object nor null (an
    array, a number, a string, a boolean) is answered with ParseError:
    reading its "method" member throws.  The buffer is cleared and the
    busy flag is left as it was. *)
Theorem X4_non_object_body_is_a_parse_error c s body :
  m_validHeader s = true ->
  Z.of_nat (String.length (m_buffer s +:+ String c "")) = m_contentLength s ->
  parse (m_buffer s +:+ String c "") = Ok body ->
  match body with Null | Object _ => False | _ => True end ->
  Consume c s
  = (Ok tt,
     emit (Output (error_response ParseError "Failed to parse request"))
          (set_buffer "" (set_body body s))).
Proof.
  intros Hv Hlen Hparse Hshape.
  rewrite Consume_body by assumption.
  unfold process_body, try_catch, dispatch, mbind, M_bind, get, modify, lift.
  run_step. rewrite Hparse. run_step.
  destruct body; try contradiction; reflexivity.
Qed.

(** X5.  A message for an unregistered method whose "params" member is
    neither an object nor null (an array, as JSON-RPC allows) is answered
    with ParseError, not MethodNotFound: the request test reads
    [params.id] and throws.  The busy flag is left as it was. *)
Theorem X5_positional_params_are_a_parse_error c s members name params :
  m_validHeader s = true ->
  Z.of_nat (String.length (m_buffer s +:+ String c "")) = m_contentLength s ->
  parse (m_buffer s +:+ String c "") = Ok (Object members) ->
  Json.lookup "method" members = Some (Str name) ->
  name <> "initialize" ->
  m_initialized s = true ->
  m_callbacks s !! name = None ->
  Json.lookup "params" members = Some params ->
  match params with Null | Object _ => False | _ => True end ->
  exists s',
    Consume c s = (Ok tt, s')
    /\ events s' = events s ++
         [Output (error_response ParseError "Failed to parse request")]
    /\ m_isProcessing s' = m_isProcessing s.
Proof.
  intros Hv Hlen Hparse Hm Hname Hinit Hcb Hp Hshape.
  rewrite Consume_body by assumption.
  unfold process_body, try_catch, dispatch, mbind, M_bind, get, modify, lift.
  run_step. rewrite Hparse. run_step. rewrite Hm. run_step.
  destruct (String.eqb_spec name "initialize") as [->|_]; [congruence|].
  run_step. rewrite Hinit. run_step.
  set (s1 := set_method name _).
  assert (Hfire : forall s2,
            m_body s2 = Object members -> m_callbacks s2 = m_callbacks s ->
            m_method s2 = name ->
            FireMethodCallback s2 = (Throw (json_type_error 305), s2)).
  { intros s2 Hb Hc Hmt.
    unfold FireMethodCallback, body_at2, mbind, M_bind, get, lift.
    cbn -[at_mut2 Str.starts_with]. rewrite Hc, Hmt, Hcb, Hb.
    unfold at_mut2, at_mut, mbind, result_bind. rewrite Hp.
    destruct params; try contradiction; reflexivity. }
  destruct (String.eqb name "$/setTrace").
  - destruct (OnTracingChanged_frame (m_body s1) s1)
      as (s2 & -> & Hev & Hb & Hc & Hmt & _ & Hbusy).
    rewrite (Hfire s2) by (rewrite ?Hb, ?Hc, ?Hmt; reflexivity).
    eexists. split; [reflexivity|]. cbn. rewrite Hev, Hbusy. auto.
  - cbn -[FireMethodCallback].
    rewrite (Hfire s1) by reflexivity.
    eexists. split; [reflexivity|]. cbn. auto.
Qed.

Lemma OnTracingChanged_value data params value s :
  at_const data "params" = Ok params ->
  at_const params "value" = Ok (Str value) ->
  OnTracingChanged data s
  = (Ok tt,
     set_verbosity (String.eqb value "verbose")
       (set_tracing (negb (String.eqb value "off")) s)).
Proof.
  intros Hp Hval.
  unfold OnTracingChanged, try_catch, set_trace_flags,
    mbind, M_bind, get, modify, lift, mret, M_ret.
  rewrite Hp, Hval. reflexivity.
Qed.

(** X6.  On an initialised endpoint a "$/setTrace" message whose
    [params.value] is a string sets the tracing flags from it, whether a
    callback is registered for the method or not; the endpoint stays
    initialised. *)
Theorem X6_setTrace_sets_tracing_flags c s members params value :
  m_validHeader s = true ->
  Z.of_nat (String.length (m_buffer s +:+ String c "")) = m_contentLength s ->
  parse (m_buffer s +:+ String c "") = Ok (Object members) ->
  Json.lookup "method" members = Some (Str "$/setTrace") ->
  m_initialized s = true ->
  Json.lookup "params" members = Some (Object params) ->
  Json.lookup "value" params = Some (Str value) ->
  exists r s',
    Consume c s = (r, s')
    /\ m_tracing s' = negb (String.eqb value "off")
    /\ m_verbosity s' = String.eqb value "verbose"
    /\ m_initialized s' = true.
Proof.
  intros Hv Hlen Hparse Hm Hinit Hp Hval.
  rewrite Consume_body by assumption.
  unfold process_body, try_catch, dispatch, mbind, M_bind, get, modify, lift.
  run_step. rewrite Hparse. run_step. rewrite Hm. run_step.
  rewrite Hinit. run_step.
  rewrite (OnTracingChanged_value _ (Object params) value)
    by (cbn; rewrite ?Hp, ?Hval; reflexivity).
  match goal with |- context [FireMethodCallback ?s2] =>
    destruct (FireMethodCallback s2) as [[[]|e] s3] eqn:E;
      apply FireMethodCallback_control in E; unfold control in E;
      injection E as _ Hi _ Ht Hvb _ _ _ end;
    do 2 eexists; (split; [reflexivity|]); cbn;
    rewrite Hi, Ht, Hvb; cbn; auto.
Qed.

(** X7.  The blank line that ends the headers: with a positive content
    length the endpoint turns to the body without a word; otherwise it
    writes InvalidRequest "Invalid content length" and goes on reading
    headers.  The buffer is empty in both cases. *)
Theorem X7_blank_line_ends_the_headers c s :
  m_validHeader s = false ->
  m_buffer s +:+ String c "" = LE ->
  header_matches LE = [] ->
  Consume c s
  = (Ok tt,
     if 0 <? m_contentLength s
     then set_validHeader true (set_buffer "" s)
     else emit (Output (error_response InvalidRequest "Invalid content length"))
               (set_validHeader false (set_buffer "" s))).
Proof.
  intros Hv Hbuf Hno.
  unfold Consume, ReadHeader, mbind, M_bind, modify, get.
  cbn -[WriteError LE]. rewrite Hv. cbn -[WriteError LE].
  rewrite Hbuf, Hno. cbn -[WriteError LE String.eqb].
  rewrite String.eqb_refl. cbn -[WriteError LE].
  destruct (0 <? m_contentLength s); reflexivity.
Qed.

(** X8.  A "Content-Length" whose value [std::stoi] rejects: the
    exception leaves [Consume]; no error response is written. *)
Theorem X8_bad_content_length_throws c s value e :
  m_validHeader s = false ->
  header_matches (m_buffer s +:+ String c "") = [("Content-Length", value)] ->
  Std.stoi value = Throw e ->
  exists s', Consume c s = (Throw e, s') /\ events s' = events s.
Proof.
  intros Hv Hm Hstoi.
  unfold Consume, ReadHeader, mbind, M_bind, modify, get, lift.
  cbn -[WriteError LE Std.stoi]. rewrite Hv. cbn -[WriteError LE Std.stoi].
  rewrite Hm. cbn -[WriteError LE Std.stoi]. rewrite Hstoi.
  eexists. split; reflexivity.
Qed.

(** X9.  A header line: it is recorded under its name, the buffer is
    cleared and nothing is written; "Content-Length" sets the content
    length, any other header leaves it alone. *)
Theorem X9_header_line_is_recorded c s key value n :
  m_validHeader s = false ->
  header_matches (m_buffer s +:+ String c "") = [(key, value)] ->
  (key = "Content-Length" -> Std.stoi value = Ok n) ->
  exists s',
    Consume c s = (Ok tt, s')
    /\ m_headers s' = <[key := value]> (m_headers s)
    /\ m_contentLength s'
       = (if String.eqb key "Content-Length" then n else m_contentLength s)
    /\ m_buffer s' = ""
    /\ m_validHeader s' = false
    /\ events s' = events s.
Proof.
  intros Hv Hm Hstoi.
  unfold Consume, ReadHeader, mbind, M_bind, modify, get, lift.
  cbn -[WriteError LE Std.stoi]. rewrite Hv. cbn -[WriteError LE Std.stoi].
  rewrite Hm. cbn -[WriteError LE Std.stoi].
  destruct (String.eqb_spec key "Content-Length") as [Hkey|_].
  - rewrite (Hstoi Hkey). eexists. split; [reflexivity|]. cbn. auto 10.
  - eexists. split; [reflexivity|]. cbn. auto 10.
Qed.

(** X10.  Without [Reset] the endpoint is deaf: once the buffer has
    reached the content length, every further byte is only appended to
    it; nothing is dispatched and nothing is written. *)
Theorem X10_deaf_until_Reset bytes : forall s,
  m_validHeader s = true ->
  m_contentLength s <= Z.of_nat (String.length (m_buffer s)) ->
  Send bytes s = (Ok tt, set_buffer (m_buffer s +:+ bytes) s).
Proof.
  induction bytes as [|a rest IH]; intros s Hv Hfull.
  - cbn. rewrite str_app_nil_r. destruct s; reflexivity.
  - change (Send (String a rest) s) with ((_ ← Consume a; Send rest) s).
    unfold mbind at 1, M_bind at 1.
    rewrite Consume_accumulate; [|assumption|].
    + rewrite IH; cbn.
      * rewrite str_app_assoc. reflexivity.
      * assumption.
      * rewrite str_length_app. cbn. lia.
    + rewrite str_length_app. cbn. lia.
Qed.

End EndpointMore.

(** * The further properties on concrete messages *)

Section EndpointMoreRuns.
Import Json JsonRPC JsonRPCSpec Scenario ExtraSpec ExtraScenario.
Local Open Scope list_scope.


(** X2 with a quiet response callback, before any "initialize". *)
Lemma X2_witness :
  let s := before_last_byte (BuildRequest response_body)
                            endpoint_with_response_callback in
  let message := Object [("id", Number 1); ("jsonrpc", Str "2.0");
                         ("method", Null); ("result", Null)] in
  exists s',
    Consume "}" s = (Ok tt, s')
    /\ events s' = events s ++ [RespondCalled message]
    /\ IsReady s' = true.
Proof.
  apply (X2_response_goes_to_response_callback "}"
           (before_last_byte (BuildRequest response_body)
                             endpoint_with_response_callback)
           [("id", Number 1); ("jsonrpc", Str "2.0"); ("result", Null)]).
  - vm_compute. reflexivity.
  - vm_compute. reflexivity.
  - vm_compute. reflexivity.
  - vm_compute. reflexivity.
  - intros callback E. vm_compute in E. injection E as <-. reflexivity.
Defined.

(** X3 with a response callback that throws. *)
Lemma X3_witness :
  let s := before_last_byte (BuildRequest response_body)
                            endpoint_with_throwing_response_callback in
  let message := Object [("id", Number 1); ("jsonrpc", Str "2.0");
                         ("method", Null); ("result", Null)] in
  exists s',
    Consume "}" s = (Ok tt, s')
    /\ events s' = events s ++
         RespondCalled message
         :: outputs_of (written (throwing_callback message))
         ++ [Output (error_response ParseError "Failed to parse request")]
    /\ m_buffer s' = ""
    /\ m_isProcessing s' = m_isProcessing s.
Proof.
  apply (X3_response_callback_exception_is_a_parse_error "}"
           (before_last_byte (BuildRequest response_body)
                             endpoint_with_throwing_response_callback)
           [("id", Number 1); ("jsonrpc", Str "2.0"); ("result", Null)]
           throwing_callback (runtime_error "handler failed")).
  - vm_compute. reflexivity.
  - vm_compute. reflexivity.
  - vm_compute. reflexivity.
  - vm_compute. reflexivity.
  - vm_compute. reflexivity.
  - vm_compute. reflexivity.
Defined.

(** X4 with the body [[1,2]]. *)
Lemma X4_witness :
  let s := before_last_byte (BuildRequest array_body) fresh in
  Consume "]" s
  = (Ok tt,
     emit (Output (error_response ParseError "Failed to parse request"))
          (set_buffer "" (set_body (Array [Number 1; Number 2]) s))).
Proof.
  apply (X4_non_object_body_is_a_parse_error "]"
           (before_last_byte (BuildRequest array_body) fresh)
           (Array [Number 1; Number 2])).
  - vm_compute. reflexivity.
  - vm_compute. reflexivity.
  - vm_compute. reflexivity.
  - exact I.
Defined.

(** X5 with positional parameters. *)
Lemma X5_witness :
  let s := before_last_byte (BuildRequest positional_params_body)
                            initialized_endpoint in
  exists s',
    Consume "}" s = (Ok tt, s')
    /\ events s' = events s ++
         [Output (error_response ParseError "Failed to parse request")]
    /\ m_isProcessing s' = m_isProcessing s.
Proof.
  apply (X5_positional_params_are_a_parse_error "}"
           (before_last_byte (BuildRequest positional_params_body)
                             initialized_endpoint)
           [("id", Number 3); ("jsonrpc", Str "2.0");
            ("method", Str "workspace/foo"); ("params", Array [Number 1])]
           "workspace/foo" (Array [Number 1])).
  - vm_compute. reflexivity.
  - vm_compute. reflexivity.
  - vm_compute. reflexivity.
  - vm_compute. reflexivity.
  - discriminate.
  - vm_compute. reflexivity.
  - vm_compute. reflexivity.
  - vm_compute. reflexivity.
  - exact I.
Defined.

(** X6 with the value "verbose". *)
Lemma X6_witness :
  let s := before_last_byte (BuildRequest setTrace_body) initialized_endpoint in
  exists r s',
    Consume "}" s = (r, s')
    /\ m_tracing s' = true
    /\ m_verbosity s' = true
    /\ m_initialized s' = true.
Proof.
  apply (X6_setTrace_sets_tracing_flags "}"
           (before_last_byte (BuildRequest setTrace_body) initialized_endpoint)
           [("jsonrpc", Str "2.0"); ("method", Str "$/setTrace");
            ("params", Object [("value", Str "verbose")])]
           [("value", Str "verbose")] "verbose").
  - vm_compute. reflexivity.
  - vm_compute. reflexivity.
  - vm_compute. reflexivity.
  - vm_compute. reflexivity.
  - vm_compute. reflexivity.
  - vm_compute. reflexivity.
  - vm_compute. reflexivity.
Defined.

(** X7 after a header that declares five bytes. *)
Lemma X7_witness :
  let s := after_bytes ("Content-Length: 5" +:+ LE +:+ CRs) in
  Consume Str.LF s = (Ok tt, set_validHeader true (set_buffer "" s)).
Proof.
  apply (X7_blank_line_ends_the_headers Str.LF
           (after_bytes ("Content-Length: 5" +:+ LE +:+ CRs))).
  - vm_compute. reflexivity.
  - vm_compute. reflexivity.
  - vm_compute. reflexivity.
Defined.

(** X8 with the value "abc". *)
Lemma X8_witness :
  let s := after_bytes ("Content-Length: abc" +:+ CRs) in
  exists s', Consume Str.LF s = (Throw invalid_argument, s')
             /\ events s' = events s.
Proof.
  apply (X8_bad_content_length_throws Str.LF
           (after_bytes ("Content-Length: abc" +:+ CRs)) "abc" invalid_argument).
  - vm_compute. reflexivity.
  - vm_compute. reflexivity.
  - vm_compute. reflexivity.
Defined.

(** X9 with "Content-Length: 42". *)
Lemma X9_witness :
  let s := after_bytes ("Content-Length: 42" +:+ CRs) in
  exists s',
    Consume Str.LF s = (Ok tt, s')
    /\ m_headers s' = <["Content-Length" := "42"]> (m_headers s)
    /\ m_contentLength s' = 42
    /\ m_buffer s' = ""
    /\ m_validHeader s' = false
    /\ events s' = events s.
Proof.
  apply (X9_header_line_is_recorded Str.LF
           (after_bytes ("Content-Length: 42" +:+ CRs)) "Content-Length" "42" 42).
  - vm_compute. reflexivity.
  - vm_compute. reflexivity.
  - intros _. vm_compute. reflexivity.
Defined.

(** X10 after the NotInitialized answer: a whole "initialize" request
    that follows is swallowed by the buffer. *)
Lemma X10_witness :
  let s := after_bytes (BuildRequest didOpen_body) in
  Send (BuildRequest initialize_body) s
  = (Ok tt, set_buffer (m_buffer s +:+ BuildRequest initialize_body) s).
Proof.
  apply (X10_deaf_until_Reset (BuildRequest initialize_body)
           (after_bytes (BuildRequest didOpen_body))).
  - vm_compute. reflexivity.
  - vm_compute. discriminate.
Defined.

End EndpointMoreRuns.

(** * More properties of the engine *)

Section SelectionMore.
Import Diagnostics.
Local Open Scope list_scope.
Context `{m_clInfo : ICLInfo}.

(** Within one platform, without a match: either no power index exceeds
    the running maximum and the selection is left alone, or the first
    device of the greatest power index is selected. *)
Lemma select_among_first_greatest identifier devices :
  forall maxPowerIndex selected,
  (forall d, In d devices -> exists p, inspect identifier d = Ok (Some p)) ->
  (select_among identifier devices maxPowerIndex selected = Ok selected
   /\ forall d p, In d devices -> inspect identifier d = Ok (Some p) ->
                  p <= maxPowerIndex)
  \/ (exists before d after p,
        devices = before ++ d :: after
        /\ select_among identifier devices maxPowerIndex selected = Ok (Some d)
        /\ inspect identifier d = Ok (Some p)
        /\ maxPowerIndex < p
        /\ (forall x q, In x before -> inspect identifier x = Ok (Some q) -> q < p)
        /\ (forall x q, In x after -> inspect identifier x = Ok (Some q) -> q <= p)).
Proof.
  induction devices as [|d0 devices IH]; intros m sel Hall; cbn [select_among].
  - left. split; [reflexivity|]. intros d p [].
  - destruct (Hall d0) as [p0 Hp0]; [simpl; auto|]. rewrite Hp0.
    assert (Hrest : forall d', In d' devices ->
              exists p', inspect identifier d' = Ok (Some p'))
      by (intros d' Hd'; apply Hall; simpl; auto).
    destruct (Z.gtb_spec p0 m) as [Hgt|Hle].
    + destruct (IH p0 (Some d0) Hrest)
        as [[E Hmax]|(before & d & after & p & -> & E & Hp & Hlt & Hb & Ha)].
      * right. exists [], d0, devices, p0.
        split; [reflexivity|]. split; [exact E|]. split; [exact Hp0|].
        split; [lia|]. split; [intros x q []|exact Hmax].
      * right. exists (d0 :: before), d, after, p.
        split; [reflexivity|]. split; [exact E|]. split; [exact Hp|].
        split; [lia|]. split; [|exact Ha].
        intros x q [<-|Hin] Hq; [|eauto].
        rewrite Hp0 in Hq. injection Hq as <-. lia.
    + destruct (IH m sel Hrest)
        as [[E Hmax]|(before & d & after & p & -> & E & Hp & Hlt & Hb & Ha)].
      * left. split; [exact E|].
        intros x q [<-|Hin] Hq; [|eauto].
        rewrite Hp0 in Hq. injection Hq as <-. lia.
      * right. exists (d0 :: before), d, after, p.
        split; [reflexivity|]. split; [exact E|]. split; [exact Hp|].
        split; [lia|]. split; [|exact Ha].
        intros x q [<-|Hin] Hq; [|eauto].
        rewrite Hp0 in Hq. injection Hq as <-. lia.
Qed.

(** The platforms are visited one after the other. *)
Lemma select_platforms_app identifier platforms platforms' : forall selected,
  select_platforms identifier (platforms ++ platforms') selected
  = (selected' ← select_platforms identifier platforms selected;
     select_platforms identifier platforms' selected').
Proof.
  induction platforms as [|p platforms IH]; intros sel; cbn [select_platforms app].
  - reflexivity.
  - destruct (getDevices p) as [[|d devices]|e].
    + apply IH.
    + unfold mbind at 1 3, result_bind at 1 3.
      destruct (select_among identifier (d :: devices) 0 sel) as [sel1|e1];
        [apply IH|reflexivity].
    + destruct (is_cl_Error e); [apply IH|reflexivity].
Qed.

Lemma SetOpenCLDevice_platforms platforms last identifier d :
  SetOpenCLDevice (Ok (platforms ++ [last])) identifier d
  = (selectedDevice ← select_platforms identifier (platforms ++ [last]) None;
     Ok {| m_device := selectedDevice;
           m_BuildOptions := m_BuildOptions d;
           m_maxNumberOfProblems := m_maxNumberOfProblems d |}).
Proof.
  unfold SetOpenCLDevice. destruct platforms; reflexivity.
Qed.

Lemma select_last_platform identifier last devices selected :
  getDevices last = Ok devices ->
  select_platforms identifier [last] selected
  = match devices with
    | [] => Ok selected
    | _ => select_among identifier devices 0 selected
    end.
Proof.
  intros Hd. cbn [select_platforms]. rewrite Hd.
  destruct devices as [|d devices]; [reflexivity|].
  unfold mbind, result_bind.
  destruct (select_among identifier (d :: devices) 0 selected); reflexivity.
Qed.

(** X11.  The requested device on the last platform: when the devices
    before it on that platform answer their queries, it is selected,
    whatever the earlier platforms offered and whatever follows it. *)
Theorem X11_match_on_last_platform_is_selected
    identifier platforms last before device after earlier d :
  select_platforms identifier platforms None = Ok earlier ->
  getDevices last = Ok (before ++ device :: after) ->
  (forall x, In x before -> exists p, inspect identifier x = Ok (Some p)) ->
  inspect identifier device = Ok None ->
  m_device <$> SetOpenCLDevice (Ok (platforms ++ [last])) identifier d
  = Ok (Some device).
Proof.
  intros Hearlier Hlast Hbefore Hmatch.
  rewrite SetOpenCLDevice_platforms, select_platforms_app, Hearlier.
  cbn [mbind result_bind].
  rewrite (select_last_platform _ _ _ _ Hlast).
  assert (E : select_among identifier (before ++ device :: after) 0 earlier
              = Ok (Some device))
    by (apply select_among_match; assumption).
  destruct (before ++ device :: after) eqn:Hl.
  - destruct before; discriminate.
  - rewrite E. reflexivity.
Qed.

(** X12.  Without a match on the last platform, whose devices all
    answer: if one of them has a positive power index, the first device
    of the greatest power index on that platform is selected, whatever
    the earlier platforms offered; otherwise the selection of the earlier
    platforms stands.  A device of power index 0 is never selected. *)
Theorem X12_last_platform_decides
    identifier platforms last devices earlier d :
  select_platforms identifier platforms None = Ok earlier ->
  getDevices last = Ok devices ->
  (forall x, In x devices -> exists p, inspect identifier x = Ok (Some p)) ->
  (m_device <$> SetOpenCLDevice (Ok (platforms ++ [last])) identifier d = Ok earlier
   /\ forall x p, In x devices -> inspect identifier x = Ok (Some p) -> p <= 0)
  \/ (exists before device after p,
        devices = before ++ device :: after
        /\ m_device <$> SetOpenCLDevice (Ok (platforms ++ [last])) identifier d
           = Ok (Some device)
        /\ inspect identifier device = Ok (Some p)
        /\ 0 < p
        /\ (forall x q, In x before -> inspect identifier x = Ok (Some q) -> q < p)
        /\ (forall x q, In x after -> inspect identifier x = Ok (Some q) -> q <= p)).
Proof.
  intros Hearlier Hlast Hall.
  rewrite SetOpenCLDevice_platforms, select_platforms_app, Hearlier.
  cbn [mbind result_bind].
  rewrite (select_last_platform _ _ _ _ Hlast).
  destruct (select_among_first_greatest identifier devices 0 earlier Hall)
    as [[E Hmax]|(before & device & after & p & Hd & E & Hp & Hlt & Hb & Ha)].
  - left. split; [|exact Hmax].
    destruct devices; [reflexivity|]. rewrite E. reflexivity.
  - right. exists before, device, after, p.
    split; [exact Hd|]. split; [|auto].
    destruct devices; [destruct before; discriminate|]. rewrite E. reflexivity.
Qed.

(** X13.  No platform and no device are not the same: when the
    enumeration gives no platform (or throws [cl::Error]) the engine is
    left as it was, its device included; when it gives platforms that
    have no device, the selection is cleared and [Get] throws "missing
    OpenCL device" for every source, without calling the driver. *)
Theorem X13_no_platform_keeps_no_device_clears
    identifier platforms last d err BuildSource text srcName :
  Forall (fun p => getDevices p = Ok [] \/ exists n, getDevices p = Throw (cl_Error n))
         (platforms ++ [last]) ->
  SetOpenCLDevice (Ok []) identifier d = Ok d
  /\ SetOpenCLDevice (Throw (cl_Error err)) identifier d = Ok d
  /\ exists d',
       SetOpenCLDevice (Ok (platforms ++ [last])) identifier d = Ok d'
       /\ m_device d' = None
       /\ Get BuildSource d' text srcName
          = Throw (runtime_error "missing OpenCL device").
Proof.
  intros Hempty. split; [reflexivity|]. split; [reflexivity|].
  rewrite SetOpenCLDevice_platforms.
  assert (E : forall sel, select_platforms identifier (platforms ++ [last]) sel = Ok sel).
  { induction (platforms ++ [last]) as [|p l IH]; intros sel; [reflexivity|].
    apply Forall_cons in Hempty as [Hp Hl]. cbn [select_platforms].
    destruct Hp as [->|[n ->]]; cbn; apply IH; exact Hl. }
  rewrite E. cbn. eexists. split; [reflexivity|]. split; reflexivity.
Qed.

End SelectionMore.

Section OptionsFacts.
Import Json Diagnostics DiagnosticsOptions ExtraSpec.
Local Open Scope list_scope.

Lemma append_options_strings l : forall args,
  append_options args (map Str l) = Ok (args +:+ joined l).
Proof.
  induction l as [|s l IH]; intros args; cbn [map append_options joined].
  - rewrite str_app_nil_r. reflexivity.
  - cbn [get_string mbind result_bind]. rewrite IH.
    rewrite !str_app_assoc. reflexivity.
Qed.

Lemma append_options_not_string options : forall args x,
  In x options -> is_string x = false ->
  append_options args options = Throw (json_type_error 302).
Proof.
  induction options as [|o options IH]; intros args x Hin Hx; [destruct Hin|].
  cbn [append_options]. destruct o; cbn; try reflexivity.
  destruct Hin as [<-|Hin]; [discriminate|]. eapply IH; eauto.
Qed.

Lemma strings_or_not (l : list json) :
  (exists strings, l = map Str strings)
  \/ (exists x, In x l /\ is_string x = false).
Proof.
  induction l as [|x l [[strings ->]|(y & Hin & Hy)]].
  - left. exists []. reflexivity.
  - destruct x; try (right; eexists; split; [left; reflexivity|reflexivity]).
    left. exists (s :: strings). reflexivity.
  - right. exists y. split; [right; exact Hin|exact Hy].
Qed.

(** X14.  [SetBuildOptions] is all or nothing.  When every option is a
    string, the option string becomes the options in order, each
    followed by one space (so it ends with a space unless it is empty);
    when one option is not a string, the engine is left as it was.  The
    device and the cap are never touched. *)
Theorem X14_SetBuildOptions_all_or_nothing options d :
  (exists strings,
     items options = map Str strings
     /\ SetBuildOptions options d
        = {| m_device := m_device d;
             m_BuildOptions := joined strings;
             m_maxNumberOfProblems := m_maxNumberOfProblems d |})
  \/ ((exists x, In x (items options) /\ is_string x = false)
      /\ SetBuildOptions options d = d).
Proof.
  unfold SetBuildOptions.
  destruct (strings_or_not (items options)) as [[strings E]|(x & Hin & Hx)].
  - left. exists strings. split; [exact E|].
    rewrite E, append_options_strings. reflexivity.
  - right. split; [eauto|].
    rewrite (append_options_not_string _ "" x Hin Hx). reflexivity.
Qed.

End OptionsFacts.

Section LogFacts.
Import Regex Diagnostics DiagnosticsSpec ExtraSpec.
Local Open Scope list_scope.

Lemma matches_line_size line :
  negb (size (search line m_regex) =? 7)%nat = negb (matches_line line).
Proof.
  rewrite size_search. unfold matches_line.
  destruct (regex_search line m_regex); reflexivity.
Qed.

Lemma BuildDiagnostics_loop_count maxp name lines : forall count acc ds,
  BuildDiagnostics_loop maxp name lines count acc = Ok ds ->
  Z.of_nat (List.length ds)
  = Z.of_nat (List.length acc)
    + Z.min (Z.of_nat (matching_lines lines)) (Z.max 0 (maxp + 1 - count)).
Proof.
  induction lines as [|line rest IH]; intros count acc ds;
    cbn [BuildDiagnostics_loop matching_lines].
  - intros [= <-]. lia.
  - rewrite matches_line_size. destruct (matches_line line); cbn [negb].
    + destruct (Z.gtb_spec count maxp).
      * intros [= <-]. lia.
      * destruct (ParseOutput _) as [[[[[source l] col] sev] msg]|e];
          [|discriminate].
        cbn. intros Hr. apply IH in Hr. rewrite List.length_app in Hr.
        cbn in Hr. lia.
    + intros Hr. apply IH in Hr. lia.
Qed.

(** X15.  The number of diagnostics of a log: the number of lines the
    pattern matches, cut at the cap plus one; none at all for a negative
    cap. *)
Theorem X15_number_of_diagnostics maxp buildLog name ds :
  BuildDiagnostics maxp buildLog name = Ok ds ->
  Z.of_nat (List.length ds)
  = Z.min (Z.of_nat (matching_lines (SplitString buildLog))) (Z.max 0 (maxp + 1)).
Proof.
  intros Hr. apply BuildDiagnostics_loop_count in Hr. cbn in Hr.
  rewrite Hr. f_equal. f_equal. lia.
Qed.

Lemma digits_val_nonneg s : forall acc, 0 <= acc -> 0 <= Std.digits_val acc s.
Proof.
  induction s as [|a s IH]; intros acc Hacc; cbn [Std.digits_val]; [exact Hacc|].
  destruct (Str.is_digit a) eqn:Ha; [|exact Hacc].
  apply IH. unfold Str.is_digit in Ha. unfold Str.digit_val.
  apply andb_prop in Ha as [Ha _]. apply Nat.leb_le in Ha. lia.
Qed.

Lemma stoi_leading_digit a s :
  Str.is_digit a = true ->
  Std.stoi (String a s)
  = (if (Std.INT_MIN <=? Std.digits_val 0 (String a s))
        && (Std.digits_val 0 (String a s) <=? Std.INT_MAX)
     then Ok (Std.digits_val 0 (String a s)) else Throw out_of_range).
Proof.
  intros Ha.
  destruct a as [[] [] [] [] [] [] [] []];
    try (vm_compute in Ha; discriminate Ha); reflexivity.
Qed.

(** [std::stoi] on a numeral: its value when it fits an [int],
    [out_of_range] when it does not. *)
Lemma stoi_numeral_value s :
  is_numeral s = true ->
  Std.stoi s
  = (if Std.digits_val 0 s <=? Std.INT_MAX
     then Ok (Std.digits_val 0 s) else Throw out_of_range).
Proof.
  intros H. apply is_numeral_elim in H as [Hd Hne].
  destruct s as [|a s]; [congruence|]. cbn [Str.all] in Hd.
  apply andb_prop in Hd as [Ha _].
  rewrite (stoi_leading_digit a s Ha).
  pose proof (digits_val_nonneg (String a s) 0 (Z.le_refl 0)) as Hpos.
  destruct (Z.leb_spec Std.INT_MIN (Std.digits_val 0 (String a s))) as [_|Hlt];
    [reflexivity|].
  unfold Std.INT_MIN in Hlt. lia.
Qed.

Lemma LogLine_no_LF line src L C sev M :
  LogLine line src L C sev M -> no_LF line = true.
Proof.
  intros (-> & Hsrc & HL & HC & Hsev & HM).
  unfold log_line, location, no_LF. rewrite !str_all_app.
  apply one_line_no_LF in Hsrc, HM. unfold no_LF in Hsrc, HM. rewrite Hsrc, HM.
  apply is_numeral_elim in HL as [HL _]. apply is_numeral_elim in HC as [HC _].
  assert (Hd : forall a, Str.is_digit a = true -> negb (Ascii.eqb a Str.LF) = true).
  { intros a Ha. destruct (Ascii.eqb_spec a Str.LF) as [->|]; [|reflexivity].
    vm_compute in Ha. discriminate. }
  rewrite (str_all_impl _ _ L Hd HL), (str_all_impl _ _ C Hd HC).
  simpl in Hsev. destruct Hsev as [<-|[<-|[<-|[<-|[]]]]]; reflexivity.
Qed.

(** X16.  A line or column number beyond [INT_MAX]: [std::stoi] throws
    [out_of_range] and nothing catches it, so the whole call throws
    instead of giving the diagnostic. *)
Theorem X16_number_out_of_range_throws maxp name line src L C sev M :
  0 <= maxp ->
  LogLine line src L C sev M ->
  (forall src' L' C' sev' M',
     LogLine line src' L' C' sev' M' ->
     (String.length src' <= String.length src)%nat) ->
  Std.INT_MAX < Std.digits_val 0 L \/ Std.INT_MAX < Std.digits_val 0 C ->
  BuildDiagnostics maxp line name = Throw out_of_range.
Proof.
  intros Hmax Hll Hlongest Hbig.
  destruct (regex_search_exact _ _ _ _ _ _ Hll Hlongest)
    as (caps & Hs & E1 & E2 & E3 & E4 & E6).
  pose proof (LogLine_no_LF _ _ _ _ _ _ Hll) as Hline.
  assert (HL : is_numeral L = true) by apply Hll.
  assert (HC : is_numeral C = true) by apply Hll.
  unfold BuildDiagnostics. rewrite SplitString_one by exact Hline.
  cbn [BuildDiagnostics_loop]. rewrite size_search, Hs. cbn [Nat.eqb negb].
  destruct (Z.gtb_spec 0 maxp) as [|_]; [lia|].
  assert (HsL : Std.stoi (default "" (caps !! 2%nat))
                = (if Std.digits_val 0 L <=? Std.INT_MAX
                   then Ok (Std.digits_val 0 L) else Throw out_of_range))
    by (rewrite E2; exact (stoi_numeral_value L HL)).
  assert (HsC : Std.stoi (default "" (caps !! 3%nat))
                = (if Std.digits_val 0 C <=? Std.INT_MAX
                   then Ok (Std.digits_val 0 C) else Throw out_of_range))
    by (rewrite E3; exact (stoi_numeral_value C HC)).
  unfold ParseOutput, str, search. cbn [sm_caps]. rewrite Hs, HsL, HsC.
  destruct (Z.leb_spec (Std.digits_val 0 L) Std.INT_MAX); [|reflexivity].
  destruct (Z.leb_spec (Std.digits_val 0 C) Std.INT_MAX); [|reflexivity].
  lia.
Qed.

Lemma colon_free_no_match line :
  no_colon line = true -> regex_search line m_regex = None.
Proof.
  intros Hnc. destruct (regex_search line m_regex) as [caps|] eqn:Hs; [|reflexivity].
  apply regex_search_sound in Hs as (src & L & C & sev & M & (-> & _) & _).
  unfold log_line, location, no_colon in Hnc. rewrite str_all_app in Hnc.
  apply andb_prop in Hnc as [_ Hnc].
  change (":" +:+ L +:+ ":" +:+ C +:+ ": " +:+ sev +:+ ": " +:+ M)
    with (String ":" (L +:+ ":" +:+ C +:+ ": " +:+ sev +:+ ": " +:+ M)) in Hnc.
  cbn in Hnc. discriminate.
Qed.

Lemma SplitString_lines_all (p : ascii -> bool) s : forall cur,
  Str.all p cur = true -> Str.all p s = true ->
  Forall (fun line => Str.all p line = true) (SplitString_lines cur s).
Proof.
  induction s as [|a s IH]; intros cur Hcur Hs; cbn [SplitString_lines].
  - constructor; [exact Hcur|constructor].
  - cbn [Str.all] in Hs. apply andb_prop in Hs as [Ha Hs].
    destruct (Ascii.eqb a Str.LF).
    + constructor; [exact Hcur|]. apply IH; [reflexivity|exact Hs].
    + apply IH; [|exact Hs]. rewrite str_all_app, Hcur. cbn. rewrite Ha. reflexivity.
Qed.

(** X17.  A build log without a colon, the empty log included, gives no
    diagnostic, whatever the cap and the name are. *)
Theorem X17_log_without_colon_gives_nothing maxp buildLog name :
  no_colon buildLog = true ->
  BuildDiagnostics maxp buildLog name = Ok [].
Proof.
  intros Hnc. unfold BuildDiagnostics, SplitString.
  assert (Hlines : Forall (fun line => no_colon line = true)
                          (SplitString_lines "" buildLog))
    by (apply SplitString_lines_all; [reflexivity|exact Hnc]).
  generalize 0 at 1.
  induction Hlines as [|line rest Hline _ IH]; intros count; [reflexivity|].
  rewrite BuildDiagnostics_loop_skip by (apply colon_free_no_match; exact Hline).
  apply IH.
Qed.

(** The loop keeps a property of the diagnostics that every matching
    line gives. *)
Lemma BuildDiagnostics_loop_Forall (P : Diagnostic -> Prop) maxp name lines :
  (forall line src L C sev M,
     In line lines -> LogLine line src L C sev M ->
     P (point_diagnostic (if String.eqb name "" then src else name)
                         (Std.digits_val 0 L - 1) (Std.digits_val 0 C)
                         (ParseSeverity sev) M)) ->
  forall count acc ds,
    Forall P acc ->
    BuildDiagnostics_loop maxp name lines count acc = Ok ds ->
    Forall P ds.
Proof.
  induction lines as [|line rest IH]; intros Hstep count acc ds Hacc;
    cbn [BuildDiagnostics_loop].
  - intros [= <-]. exact Hacc.
  - assert (Hrest : forall line' src L C sev M,
              In line' rest -> LogLine line' src L C sev M ->
              P (point_diagnostic (if String.eqb name "" then src else name)
                   (Std.digits_val 0 L - 1) (Std.digits_val 0 C)
                   (ParseSeverity sev) M))
      by (intros; eapply Hstep; [right|]; eassumption).
    rewrite size_search.
    destruct (regex_search line m_regex) as [caps|] eqn:Hs; cbn [Nat.eqb negb].
    + destruct (Z.gtb_spec count maxp); [intros [= <-]; exact Hacc|].
      pose proof Hs as Hs'.
      apply regex_search_sound in Hs'
        as (src & L & C & sev & M & Hll & E1 & E2 & E3 & E4 & E6 & _).
      assert (HL : is_numeral L = true) by apply Hll.
      assert (HC : is_numeral C = true) by apply Hll.
      assert (HsL : Std.stoi (default "" (caps !! 2%nat))
                    = (if Std.digits_val 0 L <=? Std.INT_MAX
                       then Ok (Std.digits_val 0 L) else Throw out_of_range))
        by (rewrite E2; exact (stoi_numeral_value L HL)).
      assert (HsC : Std.stoi (default "" (caps !! 3%nat))
                    = (if Std.digits_val 0 C <=? Std.INT_MAX
                       then Ok (Std.digits_val 0 C) else Throw out_of_range))
        by (rewrite E3; exact (stoi_numeral_value C HC)).
      unfold ParseOutput, str, search. cbn [sm_caps]. rewrite Hs, HsL, HsC.
      destruct (Std.digits_val 0 L <=? Std.INT_MAX); [|discriminate].
      destruct (Std.digits_val 0 C <=? Std.INT_MAX); [|discriminate].
      rewrite E1, E4, E6. cbn. apply (IH Hrest). apply Forall_app. split; [exact Hacc|].
      constructor; [|constructor]. eapply Hstep; [left; reflexivity|exact Hll].
    + apply (IH Hrest). exact Hacc.
Qed.

(** X18.  Nothing is invented: every diagnostic of the result is the
    point diagnostic of a line of the log that reads [src:L:C: sev: M],
    at line [L - 1] and character [C], with the message [M] and with the
    given name, or else [src], as its source. *)
Theorem X18_every_diagnostic_comes_from_a_line maxp buildLog name ds :
  BuildDiagnostics maxp buildLog name = Ok ds ->
  Forall (fun d =>
            exists line src L C sev M,
              In line (SplitString buildLog)
              /\ LogLine line src L C sev M
              /\ d = point_diagnostic (if String.eqb name "" then src else name)
                        (Std.digits_val 0 L - 1) (Std.digits_val 0 C)
                        (ParseSeverity sev) M) ds.
Proof.
  apply BuildDiagnostics_loop_Forall; [|constructor].
  intros line src L C sev M Hin Hll. exists line, src, L, C, sev, M. auto.
Qed.

End LogFacts.

(** * Runs of the selection and of the log reading *)

Section DiagnosticsMoreRuns.
Import Regex Diagnostics DiagnosticsSpec DiagnosticsScenario ExtraSpec ExtraScenario.
Local Open Scope list_scope.

(** X11 with the requested device (identifier 2) on the second of two
    platforms. *)
Lemma X11_witness :
  m_device <$> SetOpenCLDevice (Ok ([gpu_platform] ++ [cpu_platform])) 2 engine
  = Ok (Some small_cpu).
Proof.
  apply (X11_match_on_last_platform_is_selected 2 [gpu_platform] cpu_platform
           [] small_cpu [] (Some big_gpu) engine).
  - vm_compute. reflexivity.
  - reflexivity.
  - intros x [].
  - vm_compute. reflexivity.
Defined.

(** X12 with no match: the weaker device of the second platform against
    the stronger one of the first. *)
Lemma X12_witness :
  (m_device <$> SetOpenCLDevice (Ok ([gpu_platform] ++ [cpu_platform])) 0 initial
   = Ok (Some big_gpu)
   /\ forall x p, In x [small_cpu] -> inspect 0 x = Ok (Some p) -> p <= 0)
  \/ (exists before device after p,
        [small_cpu] = before ++ device :: after
        /\ m_device <$> SetOpenCLDevice (Ok ([gpu_platform] ++ [cpu_platform])) 0 initial
           = Ok (Some device)
        /\ inspect 0 device = Ok (Some p)
        /\ 0 < p
        /\ (forall x q, In x before -> inspect 0 x = Ok (Some q) -> q < p)
        /\ (forall x q, In x after -> inspect 0 x = Ok (Some q) -> q <= p)).
Proof.
  apply (X12_last_platform_decides 0 [gpu_platform] cpu_platform [small_cpu]
           (Some big_gpu) initial).
  - vm_compute. reflexivity.
  - reflexivity.
  - intros x [<-|[]]. eexists. vm_compute. reflexivity.
Defined.

(** X13 with two platforms that have no device, on an engine that holds
    one. *)
Lemma X13_witness :
  SetOpenCLDevice (Ok []) 0 engine = Ok engine
  /\ SetOpenCLDevice (Throw (cl_Error (-1001))) 0 engine = Ok engine
  /\ exists d',
       SetOpenCLDevice (Ok ([empty_platform] ++ [empty_platform])) 0 engine = Ok d'
       /\ m_device d' = None
       /\ Get (constant_driver three_errors_log) d' "kernel void f() {}" "k.cl"
          = Throw (runtime_error "missing OpenCL device").
Proof.
  apply (X13_no_platform_keeps_no_device_clears 0 [empty_platform] empty_platform
           engine (-1001) (constant_driver three_errors_log)
           "kernel void f() {}" "k.cl").
  repeat constructor.
Defined.

(** X15 on three errors under a cap of 1: two diagnostics. *)
Lemma X15_witness :
  Z.of_nat (List.length
              [point_diagnostic "k.cl" 0 1 1 "a"; point_diagnostic "k.cl" 1 1 1 "b"])
  = Z.min (Z.of_nat (matching_lines (SplitString three_errors_log)))
          (Z.max 0 (1 + 1)).
Proof.
  apply (X15_number_of_diagnostics 1 three_errors_log "").
  vm_compute. reflexivity.
Defined.

Lemma overflow_line_LogLine :
  LogLine overflow_line "k.cl" "99999999999" "1" "error" "a".
Proof.
  repeat split; try (vm_compute; reflexivity). simpl. auto.
Qed.

(** X16 at line number 99999999999. *)
Lemma X16_witness :
  BuildDiagnostics 100 overflow_line "" = Throw out_of_range.
Proof.
  apply (X16_number_out_of_range_throws 100 "" overflow_line
           "k.cl" "99999999999" "1" "error" "a").
  - lia.
  - exact overflow_line_LogLine.
  - apply (no_colon_longest _ _ _ _ _ _ overflow_line_LogLine).
    vm_compute. reflexivity.
  - left. vm_compute. reflexivity.
Defined.

(** X17 on a log of two lines without a colon. *)
Lemma X17_witness : BuildDiagnostics 100 plain_log "k.cl" = Ok [].
Proof.
  apply (X17_log_without_colon_gives_nothing 100 plain_log "k.cl").
  vm_compute. reflexivity.
Defined.

(** X18 on the log of three errors under the default cap. *)
Lemma X18_witness :
  Forall (fun d =>
            exists line src L C sev M,
              In line (SplitString three_errors_log)
              /\ LogLine line src L C sev M
              /\ d = point_diagnostic (if String.eqb "" "" then src else "")
                        (Std.digits_val 0 L - 1) (Std.digits_val 0 C)
                        (ParseSeverity sev) M)
         [point_diagnostic "k.cl" 0 1 1 "a"; point_diagnostic "k.cl" 1 1 1 "b";
          point_diagnostic "k.cl" 2 1 1 "c"].
Proof.
  apply (X18_every_diagnostic_comes_from_a_line 100 three_errors_log "").
  vm_compute. reflexivity.
Defined.

End DiagnosticsMoreRuns.

(** * What a byte can and cannot do to the endpoint *)

Section EndpointInvariants.
Import Json JsonRPC JsonRPCSpec ExtraSpec.
Local Open Scope list_scope.
Context `{Parser} `{HeaderRegex}.

(** The body phase catches everything. *)
Lemma process_body_ok s : exists s', process_body s = (Ok tt, s').
Proof.
  unfold process_body, try_catch, mbind, M_bind, modify.
  destruct (dispatch s) as [[b|e] s1].
  - eexists. reflexivity.
  - cbn -[WriteError]. rewrite WriteError_spec. eexists. reflexivity.
Qed.

Lemma for_each_throw {A : Type} (f : A -> M unit) l : forall s e s',
  for_each f l s = (Throw e, s') ->
  exists x s0 s1, In x l /\ f x s0 = (Throw e, s1).
Proof.
  induction l as [|x l IH]; intros s e s'; cbn [for_each].
  - discriminate.
  - unfold mbind, M_bind. destruct (f x s) as [[[]|e0] s1] eqn:E.
    + intros Hr. destruct (IH _ _ _ Hr) as (y & s0 & s2 & Hin & Hy).
      exists y, s0, s2. split; [right; exact Hin|exact Hy].
    + intros [= <- <-]. exists x, s, s1. split; [left; reflexivity|exact E].
Qed.

Lemma stoi_throws value e :
  Std.stoi value = Throw e -> e = invalid_argument \/ e = out_of_range.
Proof.
  unfold Std.stoi.
  destruct (match Std.skip_spaces value with
            | String "-" t => (true, t)
            | String "+" t => (false, t)
            | _ => (false, Std.skip_spaces value)
            end) as [neg s2].
  destruct (Std.leading_digit s2); [|intros [= <-]; auto].
  destruct (_ && _); [discriminate|intros [= <-]; auto].
Qed.

(** [ReadHeader] touches the headers and the content length only. *)
Lemma ReadHeader_keeps s r s' :
  ReadHeader s = (r, s') ->
  m_initialized s' = m_initialized s
  /\ m_isProcessing s' = m_isProcessing s
  /\ events s' = events s.
Proof.
  intros E. unfold ReadHeader, mbind, M_bind, get in E.
  match type of E with context [for_each ?f ?l s] =>
    destruct (for_each f l s) as [[[]|e] s1] eqn:Ef end;
    injection E as <- <-;
    revert Ef;
    apply (for_each_invariant _
             (fun s0 => m_initialized s0 = m_initialized s
                        /\ m_isProcessing s0 = m_isProcessing s
                        /\ events s0 = events s)); auto;
    intros [key value] s0 r0 s0' (Hi & Hb & He); unfold lift, modify;
    (destruct (String.eqb key "Content-Length");
       [destruct (Std.stoi value)|]); intros [= <- <-]; simpl; auto.
Qed.

Lemma ReadHeader_throw s e s' :
  ReadHeader s = (Throw e, s') ->
  exists value,
    In ("Content-Length", value) (header_matches (m_buffer s))
    /\ Std.stoi value = Throw e.
Proof.
  intros E. unfold ReadHeader, mbind, M_bind, get in E.
  match type of E with context [for_each ?f ?l s] =>
    destruct (for_each f l s) as [[[]|e0] s1] eqn:Ef end;
    [discriminate|].
  injection E as <- <-.
  apply for_each_throw in Ef as ([key value] & s0 & s2 & Hin & Hx).
  unfold lift, modify in Hx.
  destruct (String.eqb_spec key "Content-Length") as [->|_]; [|discriminate].
  exists value. split; [exact Hin|].
  destruct (Std.stoi value); [discriminate|]. congruence.
Qed.

(** X19.  [Consume] lets an exception out in one case only: while the
    headers are read, a "Content-Length" whose value [std::stoi]
    rejects.  The exception is [std::invalid_argument] or
    [std::out_of_range], and nothing has been written.  The body phase
    never throws. *)
Theorem X19_Consume_throws_only_on_a_bad_content_length c s e :
  fst (Consume c s) = Throw e ->
  m_validHeader s = false
  /\ (exists value,
        In ("Content-Length", value) (header_matches (m_buffer s +:+ String c ""))
        /\ Std.stoi value = Throw e)
  /\ (e = invalid_argument \/ e = out_of_range)
  /\ events (snd (Consume c s)) = events s.
Proof.
  unfold Consume, mbind, M_bind, modify, get.
  cbn -[process_body ReadHeader WriteError].
  destruct (m_validHeader s).
  - destruct (negb _); [discriminate|].
    destruct (process_body_ok (set_buffer (m_buffer s +:+ String c "") s))
      as (s' & ->). discriminate.
  - destruct (ReadHeader _) as [[found|e0] s1] eqn:Er.
    + destruct found; cbn -[WriteError].
      * destruct (String.eqb "" LE); [|discriminate]. cbn -[WriteError].
        destruct (0 <? m_contentLength s1); discriminate.
      * destruct (String.eqb (m_buffer s1) LE); [|discriminate]. cbn -[WriteError].
        destruct (0 <? m_contentLength s1); discriminate.
    + cbn. intros [= <-]. split; [reflexivity|].
      pose proof (ReadHeader_keeps _ _ _ Er) as (_ & _ & Hev).
      apply ReadHeader_throw in Er as (value & Hin & Hv). cbn in Hin.
      split; [eauto|]. split; [exact (stoi_throws _ _ Hv)|exact Hev].
Qed.

Lemma OnInitialize_initialized s r s' :
  OnInitialize s = (r, s') ->
  m_initialized s = true -> m_initialized s' = true.
Proof.
  unfold OnInitialize, try_catch, body_at2, set_trace_flags,
    mbind, M_bind, get, modify, lift, mret, M_ret.
  destruct (at_mut2 (m_body s) "params" "trace") as [[b v]|e]; simpl.
  - destruct (get_string v); simpl; intros [= <- <-]; auto.
  - intros [= <- <-]; auto.
Qed.

Ltac collect_facts :=
  repeat match goal with
  | E : OnInitialize _ = _ |- _ =>
      pose proof (OnInitialize_initialized _ _ _ E);
      pose proof (OnInitialize_busy _ _ _ E); clear E
  | E : OnTracingChanged _ _ = _ |- _ =>
      pose proof (proj1 (OnTracingChanged_lifecycle _ _ _ _ E));
      pose proof (OnTracingChanged_busy _ _ _ _ E); clear E
  | E : FireMethodCallback _ = _ |- _ =>
      apply FireMethodCallback_control in E;
      pose proof (proj1 (control_lifecycle _ _ E));
      pose proof (control_busy _ _ E); clear E
  | E : FireRespondCallback _ = _ |- _ =>
      apply FireRespondCallback_control in E;
      pose proof (proj1 (control_lifecycle _ _ E));
      pose proof (control_busy _ _ E); clear E
  end.

Ltac close_branch :=
  collect_facts; intros [= <- <-]; cbn in *;
  repeat split; intros; eauto; congruence.

(** The [try] block never lowers the lifecycle flag, never raises the
    busy flag, and changes the busy flag only for a buffer that
    parses. *)
Lemma dispatch_keeps s r s' :
  dispatch s = (r, s') ->
  (m_initialized s = true -> m_initialized s' = true)
  /\ (m_isProcessing s = false -> m_isProcessing s' = false)
  /\ (m_isProcessing s' <> m_isProcessing s ->
      exists body, parse (m_buffer s) = Ok body).
Proof.
  unfold dispatch, mbind, M_bind, get, modify, lift.
  run_step.
  destruct (parse (m_buffer s)) as [body|e]; [|close_branch].
  run_step.
  destruct (at_mut body "method") as [[body' method]|e]; [|close_branch].
  run_step.
  destruct (is_string method).
  - destruct (get_string method) as [name|e]; [|close_branch].
    run_step.
    destruct (String.eqb name "initialize").
    + destruct (OnInitialize _) as [[[]|e] s1] eqn:E1; [|close_branch].
      destruct (FireMethodCallback s1) as [[[]|e] s2] eqn:E2; close_branch.
    + run_step. destruct (m_initialized s) eqn:Hi; run_step; [|close_branch].
      destruct (String.eqb name "$/setTrace").
      * destruct (OnTracingChanged _ _) as [[[]|e] s1] eqn:E1; [|close_branch].
        destruct (FireMethodCallback s1) as [[[]|e] s2] eqn:E2; close_branch.
      * cbn -[FireMethodCallback].
        destruct (FireMethodCallback _) as [[[]|e] s2] eqn:E2; close_branch.
  - destruct (FireRespondCallback _) as [[[]|e] s1] eqn:E1; close_branch.
Qed.

Lemma process_body_keeps s :
  (m_initialized s = true -> m_initialized (snd (process_body s)) = true)
  /\ (m_isProcessing s = false -> m_isProcessing (snd (process_body s)) = false)
  /\ (m_isProcessing (snd (process_body s)) <> m_isProcessing s ->
      exists body, parse (m_buffer s) = Ok body).
Proof.
  unfold process_body, try_catch, mbind, M_bind, modify.
  destruct (dispatch s) as [[b|e] s1] eqn:Ed;
    apply dispatch_keeps in Ed as (Hi & Hb & Hp); cbn; auto.
Qed.

Lemma Consume_keeps c s :
  (m_initialized s = true -> m_initialized (snd (Consume c s)) = true)
  /\ (m_isProcessing s = false -> m_isProcessing (snd (Consume c s)) = false)
  /\ (m_isProcessing (snd (Consume c s)) <> m_isProcessing s ->
      m_validHeader s = true
      /\ Z.of_nat (String.length (m_buffer s +:+ String c "")) = m_contentLength s
      /\ exists body, parse (m_buffer s +:+ String c "") = Ok body).
Proof.
  destruct (m_validHeader s) eqn:Hv.
  - destruct (Z.eq_dec (Z.of_nat (String.length (m_buffer s +:+ String c "")))
                       (m_contentLength s)) as [Hlen|Hne].
    + rewrite Consume_body by assumption.
      destruct (process_body_keeps (set_buffer (m_buffer s +:+ String c "") s))
        as (Hi & Hb & Hp). cbn in Hi, Hb, Hp. repeat split; auto.
    + rewrite Consume_accumulate by assumption. cbn.
      repeat split; auto; congruence.
  - unfold Consume, mbind, M_bind, modify, get.
    cbn -[process_body ReadHeader WriteError]. rewrite Hv.
    destruct (ReadHeader _) as [[found|e] s1] eqn:Er;
      apply ReadHeader_keeps in Er as (Hi & Hb & _); cbn in Hi, Hb.
    + destruct found; cbn -[WriteError].
      * destruct (String.eqb "" LE); cbn -[WriteError];
          [destruct (0 <? m_contentLength s1); cbn|];
          repeat split; intros; congruence.
      * destruct (String.eqb (m_buffer s1) LE); cbn -[WriteError];
          [destruct (0 <? m_contentLength s1); cbn|];
          repeat split; intros; congruence.
    + cbn. repeat split; intros; congruence.
Qed.

Lemma Send_initialized request : forall s,
  m_initialized s = true -> m_initialized (snd (Send request s)) = true.
Proof.
  induction request as [|c rest IH]; intros s Hs.
  - exact Hs.
  - change (Send (String c rest) s) with ((_ ← Consume c; Send rest) s).
    unfold mbind, M_bind.
    pose proof (proj1 (Consume_keeps c s) Hs) as Hc.
    destruct (Consume c s) as [[[]|e] s1]; cbn in Hc.
    + apply IH. exact Hc.
    + exact Hc.
Qed.

(** X20.  Initialised is forever: no byte sequence lowers the lifecycle
    flag, whether it is read to its end or an exception cuts it short,
    and [Reset] does not lower it either. *)
Theorem X20_initialised_is_forever request s :
  m_initialized s = true ->
  m_initialized (snd (Send request s)) = true
  /\ m_initialized (snd (Reset (snd (Send request s)))) = true.
Proof.
  intros Hs. apply (Send_initialized request) in Hs. split; [exact Hs|].
  cbn. exact Hs.
Qed.

(** X21.  The busy flag.  No byte raises it (only [Reset] does), and a
    byte lowers it, making the endpoint ready, only when it completes a
    body of the announced length that parses. *)
Theorem X21_ready_only_after_a_parsed_body c s :
  (m_isProcessing s = false -> IsReady (snd (Consume c s)) = true)
  /\ (m_isProcessing s = true ->
      IsReady (snd (Consume c s)) = true ->
      m_validHeader s = true
      /\ Z.of_nat (String.length (m_buffer s +:+ String c "")) = m_contentLength s
      /\ exists body, parse (m_buffer s +:+ String c "") = Ok body).
Proof.
  destruct (Consume_keeps c s) as (_ & Hb & Hp). unfold IsReady. split.
  - intros Hs. rewrite (Hb Hs). reflexivity.
  - intros Hs Hr. apply Hp. rewrite Hs.
    destruct (m_isProcessing (snd (Consume c s))); [discriminate|congruence].
Qed.

End EndpointInvariants.

(** * The framing and the test suite's reader *)

Section FramingFacts.
Import Json JsonRPC Scenario Tests ExtraSpec.
Local Open Scope list_scope.
Local Open Scope nat_scope.

Lemma LE_app b : LE +:+ b = String Str.CR (String Str.LF b).
Proof. reflexivity. Qed.

Lemma find_LE_app a b :
  exists pos,
    find LE (a +:+ LE +:+ b) = Some pos
    /\ (pos = String.length a \/ pos + 2 <= String.length a).
Proof.
  induction a as [|c a IH].
  - exists 0. rewrite str_app_nil_l, LE_app. split; [reflexivity|auto].
  - rewrite str_app_cons. cbn [find].
    destruct (Str.starts_with LE (String c (a +:+ LE +:+ b))) eqn:E.
    + exists 0. split; [reflexivity|]. right.
      destruct a as [|c' a]; [|cbn; lia].
      rewrite str_app_nil_l, LE_app in E. cbn in E.
      destruct (Ascii.eqb Str.CR c); discriminate.
    + destruct IH as (pos & -> & Hpos). exists (S pos).
      split; [reflexivity|]. cbn [String.length]. lia.
Qed.

Lemma str_drop_app a : forall n t,
  n <= String.length a -> Str.drop n (a +:+ t) = Str.drop n a +:+ t.
Proof.
  induction a as [|c a IH]; intros n t Hn.
  - cbn in Hn. assert (n = 0) as -> by lia. rewrite str_app_nil_l.
    destruct t; reflexivity.
  - rewrite str_app_cons. destruct n as [|n]; [reflexivity|].
    cbn [Str.drop]. apply IH. cbn in Hn. lia.
Qed.

Lemma str_drop_past a : forall n t,
  Str.drop (String.length a + n) (a +:+ t) = Str.drop n t.
Proof.
  induction a as [|c a IH]; intros n t.
  - rewrite str_app_nil_l. reflexivity.
  - rewrite str_app_cons. cbn [String.length Nat.add Str.drop]. apply IH.
Qed.

Lemma str_length_drop s : forall n,
  String.length (Str.drop n s) = String.length s - n.
Proof.
  induction s as [|c s IH]; intros [|n]; cbn [Str.drop String.length];
    try reflexivity.
  rewrite IH. reflexivity.
Qed.

Lemma no_CRLF_find b : no_CRLF b = true <-> find LE b = None.
Proof.
  induction b as [|c b IH].
  - split; reflexivity.
  - cbn [no_CRLF find].
    destruct (Str.starts_with LE (String c b)); cbn [negb andb].
    + split; discriminate.
    + rewrite IH. destruct (find LE b); split; congruence.
Qed.

Lemma find_bound pattern str : forall pos,
  find pattern str = Some pos ->
  pos + String.length pattern <= String.length str.
Proof.
  induction str as [|c str IH]; intros pos; cbn [find].
  - destruct (Str.starts_with pattern "") eqn:E; [|discriminate].
    intros [= <-]. destruct pattern; [cbn; lia|discriminate].
  - destruct (Str.starts_with pattern (String c str)) eqn:E.
    + intros [= <-]. clear IH. revert E. generalize (String c str).
      induction pattern as [|a p IHp]; intros s E; [cbn; lia|].
      destruct s as [|b s]; [discriminate|]. cbn in E.
      apply andb_prop in E as [_ E]. apply IHp in E. cbn in *. lia.
    + destruct (find pattern str) as [pos'|]; [|discriminate].
      intros [= <-]. specialize (IH pos' eq_refl). cbn [String.length]. lia.
Qed.

(** The loop of [ParseResponse] stops for want of a delimiter, not of
    fuel. *)
Lemma ParseResponse_loop_ends fuel : forall str,
  String.length str <= fuel ->
  find LE (ParseResponse_loop fuel str) = None.
Proof.
  induction fuel as [|f IH]; intros str Hlen; cbn [ParseResponse_loop].
  - destruct str; [reflexivity|cbn in Hlen; lia].
  - destruct (find LE str) as [pos|] eqn:E; [|exact E].
    apply IH. rewrite str_length_drop. apply find_bound in E.
    change (String.length LE) with 2 in *. lia.
Qed.

Lemma ParseResponse_loop_last b :
  find LE b = None ->
  forall fuel a,
    String.length a < fuel ->
    ParseResponse_loop fuel (a +:+ LE +:+ b) = b.
Proof.
  intros Hb. induction fuel as [|f IH]; intros a Hf; [lia|].
  cbn [ParseResponse_loop].
  destruct (find_LE_app a b) as (pos & -> & [->|Hpos]).
  - change (String.length LE) with 2. rewrite str_drop_past.
    change (Str.drop 2 (LE +:+ b)) with b.
    destruct f; cbn [ParseResponse_loop]; [reflexivity|]. rewrite Hb. reflexivity.
  - change (String.length LE) with 2. rewrite str_drop_app by lia.
    apply IH. rewrite str_length_drop. lia.
Qed.

Lemma ParseResponse_last a b :
  no_CRLF b = true -> ParseResponse (a +:+ LE +:+ b) = b.
Proof.
  intros Hb. apply no_CRLF_find in Hb. unfold ParseResponse.
  apply ParseResponse_loop_last; [exact Hb|].
  rewrite !str_length_app. change (String.length LE) with 2. lia.
Qed.

Lemma frame_split content :
  frame content
  = ("Content-Length: " +:+ to_string_nat (String.length content) +:+ LE
     +:+ "Content-Type: application/vscode-jsonrpc;charset=utf-8" +:+ LE)
    +:+ LE +:+ content.
Proof. unfold frame. rewrite !str_app_assoc. reflexivity. Qed.

(** X22.  What follows the last delimiter: for a text without CR LF,
    [ParseResponse] returns it from behind any prefix that a CR LF ends.
    So it returns the body of a message that [Write] framed, and of a
    request that [BuildRequest] built. *)
Theorem X22_ParseResponse_unframes content :
  no_CRLF content = true ->
  (forall a, ParseResponse (a +:+ LE +:+ content) = content)
  /\ ParseResponse (frame content) = content
  /\ ParseResponse (BuildRequest content) = content.
Proof.
  intros Hc. split; [|split].
  - intros a. apply ParseResponse_last. exact Hc.
  - rewrite frame_split. apply ParseResponse_last. exact Hc.
  - change (BuildRequest content) with (frame content).
    rewrite frame_split. apply ParseResponse_last. exact Hc.
Qed.

(** X23.  [ParseResponse] never returns a text that holds a CR LF: a
    framed body that holds one does not come back whole. *)
Theorem X23_ParseResponse_result_has_no_delimiter str :
  no_CRLF (ParseResponse str) = true
  /\ forall content,
       no_CRLF content = false -> ParseResponse (frame content) <> content.
Proof.
  assert (Hno : forall s, no_CRLF (ParseResponse s) = true).
  { intros s. apply no_CRLF_find. unfold ParseResponse.
    apply ParseResponse_loop_ends. lia. }
  split; [apply Hno|].
  intros content Hc Heq. specialize (Hno (frame content)).
  rewrite Heq in Hno. congruence.
Qed.

End FramingFacts.

(** * Runs *)

Section InvariantRuns.
Import Json JsonRPC JsonRPCSpec Scenario Tests ExtraSpec ExtraScenario.
Local Open Scope list_scope.

(** X19 at the last byte of the header line "Content-Length: abc". *)
Lemma X19_witness :
  let s := after_bytes ("Content-Length: abc" +:+ CRs) in
  m_validHeader s = false
  /\ (exists value,
        In ("Content-Length", value)
           (header_matches (m_buffer s +:+ String Str.LF ""))
        /\ Std.stoi value = Throw invalid_argument)
  /\ (invalid_argument = invalid_argument \/ invalid_argument = out_of_range)
  /\ events (snd (Consume Str.LF s)) = events s.
Proof.
  apply (X19_Consume_throws_only_on_a_bad_content_length Str.LF
           (after_bytes ("Content-Length: abc" +:+ CRs)) invalid_argument).
  vm_compute. reflexivity.
Defined.

(** X20 on the initialised endpoint of the tests, with a whole request. *)
Lemma X20_witness :
  m_initialized (snd (Send (BuildRequest didOpen_body) initialized_endpoint)) = true
  /\ m_initialized
       (snd (Reset (snd (Send (BuildRequest didOpen_body) initialized_endpoint))))
     = true.
Proof.
  apply (X20_initialised_is_forever (BuildRequest didOpen_body) initialized_endpoint).
  vm_compute. reflexivity.
Defined.

(** X21 at the last byte of the "initialize" request of the tests. *)
Lemma X21_witness :
  let s := before_last_byte (BuildRequest initialize_body) fresh in
  m_validHeader s = true
  /\ Z.of_nat (String.length (m_buffer s +:+ "}")) = m_contentLength s
  /\ exists body, parse (m_buffer s +:+ "}") = Ok body.
Proof.
  apply (proj2 (X21_ready_only_after_a_parsed_body "}"
                  (before_last_byte (BuildRequest initialize_body) fresh))).
  - vm_compute. reflexivity.
  - vm_compute. reflexivity.
Defined.

(** X22 with a body that the tests send. *)
Lemma X22_witness :
  (forall a, ParseResponse (a +:+ LE +:+ didOpen_body) = didOpen_body)
  /\ ParseResponse (frame didOpen_body) = didOpen_body
  /\ ParseResponse (BuildRequest didOpen_body) = didOpen_body.
Proof.
  apply (X22_ParseResponse_unframes didOpen_body).
  vm_compute. reflexivity.
Defined.

(** X23 with a body of two lines. *)
Lemma X23_witness :
  ParseResponse (frame ("a" +:+ LE +:+ "b")) <> "a" +:+ LE +:+ "b".
Proof.
  apply (proj2 (X23_ParseResponse_result_has_no_delimiter "") ("a" +:+ LE +:+ "b")).
  vm_compute. reflexivity.
Defined.

End InvariantRuns.

(** * The cap at its edge *)

Section CapFacts.
Import Regex Diagnostics DiagnosticsSpec ExtraSpec.
Local Open Scope list_scope.



End CapFacts.

Section CapRuns.
Import Regex Diagnostics DiagnosticsSpec DiagnosticsScenario ExtraSpec ExtraScenario.
Local Open Scope list_scope.


End CapRuns.
